(** * pylana.modules.logs: the log transfer client of the LANA API wrapper

    A shallow embedding of [src/pylana/modules/logs.py].  Python values are
    JSON-shaped data, dictionaries handed to the HTTP layer are finite maps,
    and every method of [LogsAPI] is a computation in a state-and-exception
    monad over a world made of the caller's streams, the remote service and
    the log of what the client did. *)

From Stdlib Require Import ZArith String Ascii List.
From stdpp Require Import base option list gmap strings pretty.
Import ListNotations.

Set Warnings "-register-all".

Local Open Scope string_scope.
Local Open Scope list_scope.
Local Open Scope Z_scope.

(** ** Python values *)

(** The values that cross the interface: [None], booleans, integers, strings,
    lists and dictionaries with string keys (in insertion order).  Floats do
    not occur in the arguments the methods inspect. *)
Inductive json : Type :=
| JNull
| JBool (b : bool)
| JInt (z : Z)
| JStr (s : string)
| JList (l : list json)
| JDict (kv : list (string * json)).

(** Python's truth value of an object: [None], [False], [0], the empty
    string and the empty containers are false. *)
Definition truthy (v : json) : bool :=
  match v with
  | JNull => false
  | JBool b => b
  | JInt z => negb (z =? 0)
  | JStr s => negb (String.eqb s "")
  | JList l => match l with [] => false | _ => true end
  | JDict kv => match kv with [] => false | _ => true end
  end.

(** [isinstance(v, str)] *)
Definition is_str (v : json) : bool :=
  match v with JStr _ => true | _ => false end.

(** ** json.dumps with its default arguments *)

Definition dquote : string := String (ascii_of_nat 34) EmptyString.
Definition backslash : string := String (ascii_of_nat 92) EmptyString.

Definition hex_digit (n : nat) : ascii :=
  if (n <? 10)%nat then ascii_of_nat (48 + n) else ascii_of_nat (87 + n).

(** One character under [ensure_ascii=True]: the quote and the backslash are
    escaped, the control characters have their short forms or a [\u00XX]
    escape, and so has everything above [~]. *)
Definition escape_char (c : ascii) : string :=
  let n := nat_of_ascii c in
  if (n =? 34)%nat then backslash +:+ dquote
  else if (n =? 92)%nat then backslash +:+ backslash
  else if (n =? 10)%nat then backslash +:+ "n"
  else if (n =? 13)%nat then backslash +:+ "r"
  else if (n =? 9)%nat then backslash +:+ "t"
  else if (n =? 8)%nat then backslash +:+ "b"
  else if (n =? 12)%nat then backslash +:+ "f"
  else if ((n <? 32) || (126 <? n))%nat then
    backslash +:+ "u00" +:+
      String (hex_digit (n / 16)) (String (hex_digit (n mod 16)) EmptyString)
  else String c EmptyString.

Fixpoint escape_string (s : string) : string :=
  match s with
  | EmptyString => EmptyString
  | String c s' => escape_char c +:+ escape_string s'
  end.

Definition dumps_str (s : string) : string :=
  dquote +:+ escape_string s +:+ dquote.

Definition dumps_int (z : Z) : string := pretty z.

(** Items are joined with [", "], keys and values with [": "]. *)
Fixpoint json_dumps (v : json) : string :=
  match v with
  | JNull => "null"
  | JBool true => "true"
  | JBool false => "false"
  | JInt z => dumps_int z
  | JStr s => dumps_str s
  | JList l =>
      let fix items (l : list json) : string :=
        match l with
        | [] => ""
        | [x] => json_dumps x
        | x :: l' => json_dumps x +:+ ", " +:+ items l'
        end in
      "[" +:+ items l +:+ "]"
  | JDict kv =>
      let fix members (kv : list (string * json)) : string :=
        match kv with
        | [] => ""
        | [(k, x)] => dumps_str k +:+ ": " +:+ json_dumps x
        | (k, x) :: kv' =>
            dumps_str k +:+ ": " +:+ json_dumps x +:+ ", " +:+ members kv'
        end in
      "{" +:+ members kv +:+ "}"
  end.

(** ** prepare_semantics (logs.py, lines 15-16) *)

Definition prepare_semantics (semantics : json) : string :=
  if negb (is_str semantics) then json_dumps semantics
  else match semantics with JStr s => s | _ => "" end.

(** ** str() of a value, as an f-string renders it *)

Fixpoint contains_char (n : nat) (s : string) : bool :=
  match s with
  | EmptyString => false
  | String c s' => (nat_of_ascii c =? n)%nat || contains_char n s'
  end.

(** [repr] of a string picks double quotes only when the text has a single
    quote and no double quote; characters are code points below 256. *)
Definition repr_quote (s : string) : nat :=
  if contains_char 39 s && negb (contains_char 34 s) then 34%nat else 39%nat.

Definition repr_char (q : nat) (c : ascii) : string :=
  let n := nat_of_ascii c in
  if ((n =? q) || (n =? 92))%nat then backslash +:+ String c EmptyString
  else if (n =? 9)%nat then backslash +:+ "t"
  else if (n =? 10)%nat then backslash +:+ "n"
  else if (n =? 13)%nat then backslash +:+ "r"
  else if ((n <? 32) || ((126 <? n) && (n <? 161)) || (n =? 173))%nat then
    backslash +:+ "x" +:+
      String (hex_digit (n / 16)) (String (hex_digit (n mod 16)) EmptyString)
  else String c EmptyString.

Fixpoint repr_chars (q : nat) (s : string) : string :=
  match s with
  | EmptyString => EmptyString
  | String c s' => repr_char q c +:+ repr_chars q s'
  end.

Definition repr_str (s : string) : string :=
  let q := String (ascii_of_nat (repr_quote s)) EmptyString in
  q +:+ repr_chars (repr_quote s) s +:+ q.

Fixpoint py_repr (v : json) : string :=
  match v with
  | JNull => "None"
  | JBool true => "True"
  | JBool false => "False"
  | JInt z => pretty z
  | JStr s => repr_str s
  | JList l =>
      let fix items (l : list json) : string :=
        match l with
        | [] => ""
        | [x] => py_repr x
        | x :: l' => py_repr x +:+ ", " +:+ items l'
        end in
      "[" +:+ items l +:+ "]"
  | JDict kv =>
      let fix members (kv : list (string * json)) : string :=
        match kv with
        | [] => ""
        | [(k, x)] => repr_str k +:+ ": " +:+ py_repr x
        | (k, x) :: kv' =>
            repr_str k +:+ ": " +:+ py_repr x +:+ ", " +:+ members kv'
        end in
      "{" +:+ members kv +:+ "}"
  end.

(** [f'{v}'] *)
Definition py_str (v : json) : string :=
  match v with
  | JStr s => s
  | _ => py_repr v
  end.

(** ** Exceptions and results *)

(** What a response carries: a JSON document, kept decoded ([JsonBody j]
    stands for any text that [json.loads] maps to [j]), or text that is not
    JSON. *)
Inductive Body : Type :=
| JsonBody (j : json)
| TextBody (s : string).

(** The exceptions the methods can end in.  [RequestError] and
    [ProtocolError] are the ones of the response helpers; [Exception] is the
    plain [Exception(msg)] of [get_log_id]; the others are raised by the
    Python run time and its libraries. *)
Inductive exn : Type :=
| RequestError (status : Z) (body : Body)
| ProtocolError
| JSONDecodeError
| ReError
| TypeError
| KeyError (key : string)
| ValueError
| AttributeError
| Exception (msg : string)
| TransportError (msg : string).

Inductive result (A : Type) : Type :=
| Ok (a : A)
| Raise (e : exn).
Arguments Ok {A} a.
Arguments Raise {A} e.

Definition result_bind {A B} (f : A -> result B) (r : result A) : result B :=
  match r with
  | Ok a => f a
  | Raise e => Raise e
  end.

#[global] Instance result_mret : MRet result := fun _ a => Ok a.
#[global] Instance result_mbind : MBind result := fun _ _ f r => result_bind f r.

(** The error kinds of the specification's taxonomy, and the kind each
    exception of the code belongs to.  The lookup failure of [get_log_id] is
    the taxonomy's ambiguous-name error; nothing in [logs.py] raises an error
    of the not-found kind. *)
Inductive error_kind : Type :=
| KRequestError
| KProtocolError
| KAmbiguousNameError
| KNotFoundError.

Definition kind_of (e : exn) : option error_kind :=
  match e with
  | RequestError _ _ => Some KRequestError
  | ProtocolError => Some KProtocolError
  | Exception _ => Some KAmbiguousNameError
  | _ => None
  end.

Definition raises_kind {A} (k : error_kind) (r : result A) : Prop :=
  exists e, r = Raise e /\ kind_of e = Some k.

(** ** Streams, requests and responses *)

(** An open or closed text or binary stream of the caller. *)
Record Stream : Type := mkStream {
  content : string;
  position : nat;
  closed : bool;
  obj_hash : Z
}.

Inductive Method : Type := GET | POST | DELETE.

(** One entry of the [files] dictionary: [(filename, content, mime type)]. *)
Definition FilePart : Type := (string * json * string)%type.

Record Request : Type := mkRequest {
  meth : Method;
  route : string;
  files : gmap string FilePart;
  data : gmap string string;
  options : gmap string json
}.

Record Response : Type := mkResponse {
  status_code : Z;
  body : Body
}.

(** [resp.text] *)
Definition resp_text (r : Response) : string :=
  match body r with
  | JsonBody j => json_dumps j
  | TextBody s => s
  end.

(** What the client does, in order. *)
Inductive Event : Type :=
| Sent (r : Request)
| StatusChecked (r : Response)
| JsonDecoded (r : Response)
| StreamRead (h : nat).

(** ** The libraries behind the client *)

(** Python's [re]: [re_compile] is [None] where [re.compile] raises
    [re.error]; [re_search rc s] tells whether [rc.search(s)] finds a match. *)
Class PyRe : Type := {
  pattern : Type;
  re_compile : string -> option pattern;
  re_search : pattern -> string -> bool
}.

(** The HTTP layer under [API.get], [API.post] and [API.delete]: the remote
    service answers a request or the transport raises. *)
Class Backend : Type := {
  Remote : Type;
  transport : Request -> Remote -> Remote * result Response
}.

(** pandas, and the semantics inference of [pylana.semantics]. *)
Class Tables : Type := {
  DataFrame : Type;
  to_csv : DataFrame -> string;
  read_csv : string -> gmap string json -> result DataFrame;
  create_event_semantics_from_df : DataFrame -> string -> result (DataFrame * json);
  create_case_semantics_from_df : DataFrame -> result (DataFrame * json)
}.

(** ** The world and the monad of the client *)

Section Client.
Context {re : PyRe} {backend : Backend} {tables : Tables}.

Record World : Type := mkWorld {
  streams : gmap nat Stream;
  remote : Remote;
  trace : list Event
}.

Definition M (A : Type) : Type := World -> World * result A.

Definition ret {A} (a : A) : M A := fun w => (w, Ok a).
Definition raise {A} (e : exn) : M A := fun w => (w, Raise e).
Definition bind {A B} (m : M A) (f : A -> M B) : M B :=
  fun w =>
    match m w with
    | (w', Ok a) => f a w'
    | (w', Raise e) => (w', Raise e)
    end.
Definition lift {A} (r : result A) : M A := fun w => (w, r).

#[global] Instance M_mret : MRet M := fun _ a => ret a.
#[global] Instance M_mbind : MBind M := fun _ _ f m => bind m f.

Definition emit (e : Event) : M unit :=
  fun w => (mkWorld (streams w) (remote w) (trace w ++ [e]), Ok tt).

(** Hands a request to the HTTP layer. *)
Definition send (r : Request) : M Response :=
  fun w =>
    let '(rem, res) := transport r (remote w) in
    (mkWorld (streams w) rem (trace w ++ [Sent r]), res).

(** A call [f(k1=..., ..., **kwargs)]: Python refuses a keyword that is given
    twice with a [TypeError], before the callee runs. *)
Definition distinct_keywords (explicit : list string)
    (kwargs : gmap string json) : bool :=
  forallb (fun k => bool_decide (kwargs !! k = None)) explicit.

Definition bind_keywords (explicit : list string) (kwargs : gmap string json)
  : M unit :=
  if distinct_keywords explicit kwargs then ret tt else raise TypeError.

(** [self.get(route, **kwargs)], [self.post(route, files=..., data=...,
    **kwargs)] and [self.delete(route, **kwargs)]. *)
Definition api_get (rt : string) (kwargs : gmap string json) : M Response :=
  send (mkRequest GET rt ∅ ∅ kwargs).

Definition api_post (rt : string) (fs : gmap string FilePart)
    (dt : gmap string string) (kwargs : gmap string json) : M Response :=
  _ ← bind_keywords ["files"; "data"] kwargs;
  send (mkRequest POST rt fs dt kwargs).

Definition api_delete (rt : string) (kwargs : gmap string json) : M Response :=
  send (mkRequest DELETE rt ∅ ∅ kwargs).

(** ** The response helpers of pylana.utils *)

Definition is_success (status : Z) : bool :=
  (200 <=? status) && (status <? 300).

(** Modelled from the spec: [pylana.utils.handle_response] is not among the
    sources.  Status validation inspects the HTTP status of the response the
    wrapped call returned; a status outside the success range raises
    [RequestError] with the status code and the body, otherwise the response
    is handed on. *)
Definition handle_response (method : M Response) : M Response :=
  resp ← method;
  _ ← emit (StatusChecked resp);
  if is_success (status_code resp) then ret resp
  else raise (RequestError (status_code resp) (body resp)).

(** [resp.json()] *)
Definition resp_json (resp : Response) : M json :=
  _ ← emit (JsonDecoded resp);
  match body resp with
  | JsonBody j => ret j
  | TextBody _ => raise JSONDecodeError
  end.

(** [try: m except JSONDecodeError: raise ProtocolError] *)
Definition decode_or_protocol_error (m : M json) : M json :=
  fun w =>
    match m w with
    | (w', Raise JSONDecodeError) => (w', Raise ProtocolError)
    | out => out
    end.

(** Modelled from the spec: [pylana.utils.expect_json] is not among the
    sources.  Body decoding turns the body of the response into its JSON
    structure; a body that does not decode is a [ProtocolError]. *)
Definition expect_json (method : M Response) : M json :=
  resp ← method;
  decode_or_protocol_error (resp_json resp).

(** ** Streams *)

(** [hash(stream)]; a handle outside the store stands for an object that is
    no stream. *)
Definition py_hash (h : nat) : M Z :=
  fun w =>
    match streams w !! h with
    | Some st => (w, Ok (obj_hash st))
    | None => (w, Raise TypeError)
    end.

(** An open stream after [read()]: the position has moved to the end of the
    content, unless it was beyond it already. *)
Definition at_end (st : Stream) : Stream :=
  mkStream (content st)
    (Nat.max (position st) (String.length (content st))) false (obj_hash st).

(** [stream.read()]: the rest of the content, leaving the position at the
    end; a closed stream raises [ValueError]. *)
Definition stream_read (h : nat) : M string :=
  fun w =>
    match streams w !! h with
    | None => (w, Raise AttributeError)
    | Some st =>
        if closed st then (w, Raise ValueError)
        else
          let n := String.length (content st) in
          (mkWorld (<[h := at_end st]> (streams w))
             (remote w) (trace w ++ [StreamRead h]),
           Ok (substring (position st) (n - position st) (content st)))
    end.

(** ** Subscripts, iteration and pattern search on decoded JSON *)

Fixpoint assoc (k : string) (kv : list (string * json)) : option json :=
  match kv with
  | [] => None
  | (k', v) :: kv' => if String.eqb k k' then Some v else assoc k kv'
  end.

(** [v[k]] for a string key [k] *)
Definition py_getitem (v : json) (k : string) : result json :=
  match v with
  | JDict kv =>
      match assoc k kv with
      | Some x => Ok x
      | None => Raise (KeyError k)
      end
  | _ => Raise TypeError
  end.

(** [iter(v)]: a list yields its items, a dictionary its keys, a string its
    characters; the other values are not iterable. *)
Definition py_iter (v : json) : result (list json) :=
  match v with
  | JList l => Ok l
  | JDict kv => Ok (map (fun p => JStr (fst p)) kv)
  | JStr s => Ok (map (fun c => JStr (String c EmptyString)) (list_ascii_of_string s))
  | _ => Raise TypeError
  end.

(** [re.compile(contains)]; [None] is not a pattern. *)
Definition py_re_compile (contains : option string) : result pattern :=
  match contains with
  | None => Raise TypeError
  | Some p =>
      match re_compile p with
      | Some rc => Ok rc
      | None => Raise ReError
      end
  end.

(** [rc.search(v)] as a truth value *)
Definition py_search (rc : pattern) (v : json) : result bool :=
  match v with
  | JStr s => Ok (re_search rc s)
  | _ => Raise TypeError
  end.

(** ** LogsAPI *)

(** [self.user.user_id], and [self.get_event_csv], which [get_event_log]
    calls and which this class does not define. *)
Variable user_id : string.
Variable get_event_csv : json -> M Response.

(** lines 21-30 *)
Definition list_logs (kwargs : gmap string json) : M json :=
  expect_json (handle_response (api_get "/api/logs" kwargs)).

(** lines 32-42 *)
Definition list_user_logs (kwargs : gmap string json) : M json :=
  expect_json
    (handle_response (api_get ("/api/users/" +:+ user_id +:+ "/logs") kwargs)).

(** The comprehension of line 60,
    [[log['id'] for log in logs if rc.search(log['name'])]]. *)
Fixpoint select_ids (rc : pattern) (logs : list json) : result (list json) :=
  match logs with
  | [] => Ok []
  | log :: rest =>
      name ← py_getitem log "name";
      found ← py_search rc name;
      if found : bool then
        log_id ← py_getitem log "id";
        ids ← select_ids rc rest;
        Ok (log_id :: ids)
      else select_ids rc rest
  end.

(** lines 44-60 *)
Definition get_log_ids (contains : option string) (kwargs : gmap string json)
  : M (list json) :=
  resp ← api_get "/api/logs" kwargs;
  rc ← lift (py_re_compile contains);
  listing ← resp_json resp;
  logs ← lift (py_iter listing);
  lift (select_ids rc logs).

(** The text of [f'Found {len(logs_matching)} logs with the name {log_name}']. *)
Definition found_message (n : nat) (log_name : option string) : string :=
  "Found " +:+ pretty n +:+ " logs with the name " +:+
    match log_name with Some s => s | None => "None" end.

(** lines 62-76: unpacking [[log_id] = logs_matching] raises [ValueError]
    unless the list has one item, and the handler raises [Exception]. *)
Definition get_log_id (log_name : option string) (kwargs : gmap string json)
  : M json :=
  logs_matching ← get_log_ids log_name kwargs;
  match logs_matching with
  | [log_id] => ret log_id
  | _ => raise (Exception (found_message (length logs_matching) log_name))
  end.

(** lines 104-116: the local [files] of [upload_event_log] *)
Definition upload_files (name log : string) (case_attributes : json)
  : gmap string FilePart :=
  let files_required : gmap string FilePart :=
    {[ "eventCSVFile" := (name, JStr log, "text/csv") ]} in
  if truthy case_attributes
  then {[ "caseAttributeFile" :=
            (name +:+ "_case_attributes", case_attributes, "text/csv") ]}
         ∪ files_required
  else files_required.

(** lines 107-120: the local [semantics] of [upload_event_log] *)
Definition upload_semantics (name : string)
    (log_semantics case_attribute_semantics : json) : gmap string string :=
  let semantics_required : gmap string string :=
    <[ "eventSemantics" := prepare_semantics log_semantics ]>
      (<[ "logName" := name ]>
         (<[ "timeZone" := "Europe/Berlin" ]> ∅)) in
  if truthy case_attribute_semantics
  then {[ "caseSemantics" := prepare_semantics case_attribute_semantics ]}
         ∪ semantics_required
  else semantics_required.

(** lines 95-123 *)
Definition upload_event_log (name log : string) (log_semantics : json)
    (case_attributes case_attribute_semantics : json)
    (kwargs : gmap string json) : M Response :=
  handle_response
    (let files := upload_files name log case_attributes in
     let semantics :=
       upload_semantics name log_semantics case_attribute_semantics in
     api_post "/api/logs/csv-case-attributes-event-semantics"
       files semantics kwargs).

(** The parameters of [upload_event_log]; a call that passes them and
    [**kwargs] cannot have them in [kwargs] too. *)
Definition upload_event_log_params : list string :=
  ["self"; "name"; "log"; "log_semantics"; "case_attributes";
   "case_attribute_semantics"].

(** lines 78-93 *)
Definition upload_event_log_stream (log : nat) (log_semantics : json)
    (case : nat) (case_semantics : json) (prefix : string)
    (kwargs : gmap string json) : M Response :=
  handle_response
    (h ← py_hash log;
     let name := prefix +:+ pretty h in
     log_text ← stream_read log;
     case_text ← stream_read case;
     _ ← bind_keywords upload_event_log_params kwargs;
     upload_event_log name log_text log_semantics
       (JStr case_text) case_semantics kwargs).

(** lines 125-140 *)
Definition upload_event_log_df (name : string) (df_log df_case : DataFrame)
    (time_format : string) (kwargs : gmap string json) : M Response :=
  handle_response
    ('(df_events, event_semantics) ←
       lift (create_event_semantics_from_df df_log time_format);
     '(df_cases, case_semantics) ← lift (create_case_semantics_from_df df_case);
     let log_csv := to_csv df_events in
     let case_csv := to_csv df_cases in
     _ ← bind_keywords upload_event_log_params kwargs;
     upload_event_log name log_csv event_semantics
       (JStr case_csv) case_semantics kwargs).

(** lines 142-153 *)
Definition append_events_df (log_id : string) (df_log : DataFrame)
    (time_format : string) (kwargs : gmap string json) : M Response :=
  handle_response
    ('(df_events, event_semantics) ←
       lift (create_event_semantics_from_df df_log time_format);
     let files : gmap string FilePart :=
       {[ "eventCSVFile" := ("event-file", JStr (to_csv df_events), "text/csv") ]} in
     let semantics : gmap string string :=
       {[ "eventSemantics" := prepare_semantics event_semantics ]} in
     api_post ("/api/logs/" +:+ log_id +:+ "/csv") files semantics kwargs).

(** lines 155-160 *)
Definition delete_log (log_id : json) (kwargs : gmap string json) : M Response :=
  handle_response (api_delete ("/api/logs/" +:+ py_str log_id) kwargs).

(** A list comprehension whose item is a call: the calls run in order and the
    first exception ends the comprehension. *)
Fixpoint for_each {A B} (f : A -> M B) (l : list A) : M (list B) :=
  match l with
  | [] => ret []
  | x :: l' =>
      y ← f x;
      ys ← for_each f l';
      ret (y :: ys)
  end.

(** lines 162-167 *)
Definition delete_logs (contains : option string) (kwargs : gmap string json)
  : M (list Response) :=
  log_ids ← get_log_ids contains kwargs;
  for_each (fun log_id => delete_log log_id ∅) log_ids.

(** lines 169-182 *)
Definition request_event_csv (log_id : json) (kwargs : gmap string json)
  : M Response :=
  handle_response
    (let request_field :=
       json_dumps
         (JDict [("activityExclusionFilter", JList []);
                 ("includeHeader", JBool true);
                 ("includeLogId", JBool false);
                 ("logId", log_id);
                 ("edgeThreshold", JInt 1);
                 ("traceFilterSequence", JList []);
                 ("runConformance", JBool true);
                 ("graphControl",
                  JDict [("sizeControl", JStr "Frequency");
                         ("colorControl", JStr "AverageDuration")])]) in
     api_get ("/api/eventCsvWithFilter?request=" +:+ request_field) kwargs).

(** lines 184-194: [log_id or self.get_log_id(log_name)] looks the name up
    only when [log_id] is false. *)
Definition get_event_log (log_name : option string) (log_id : json)
    (kwargs : gmap string json) : M DataFrame :=
  log_id ← (if truthy log_id then ret log_id else get_log_id log_name ∅);
  resp ← get_event_csv log_id;
  _ ← bind_keywords ["dtype"] kwargs;
  lift (read_csv (resp_text resp) (<[ "dtype" := JStr "object" ]> kwargs)).

End Client.

(** ** Comparison of values, and max() *)

(** The integer a number stands for: [True] is [1] and [False] is [0]. *)
Definition as_int (v : json) : option Z :=
  match v with
  | JInt z => Some z
  | JBool b => Some (if b then 1 else 0)
  | _ => None
  end.

(** [a == b]: values of different kinds are unequal, booleans count as
    numbers, and dictionaries are equal when they map the same keys to equal
    values, in any order. *)
Fixpoint py_eq (a b : json) : bool :=
  match a, b with
  | JNull, JNull => true
  | JStr s, JStr t => String.eqb s t
  | JList l, JList m =>
      (fix eq_items (l m : list json) : bool :=
         match l, m with
         | [], [] => true
         | x :: l', y :: m' => py_eq x y && eq_items l' m'
         | _, _ => false
         end) l m
  | JDict kv, JDict kw =>
      (length kv =? length kw)%nat &&
      (fix eq_members (kv : list (string * json)) : bool :=
         match kv with
         | [] => true
         | (k, x) :: kv' =>
             match assoc k kw with
             | Some y => py_eq x y && eq_members kv'
             | None => false
             end
         end) kv
  | _, _ =>
      match as_int a, as_int b with
      | Some x, Some y => x =? y
      | _, _ => false
      end
  end.

(** [s > t] on strings: by the code points, the longer string winning over
    its prefix. *)
Fixpoint str_gt (s t : string) : bool :=
  match s, t with
  | EmptyString, _ => false
  | String _ _, EmptyString => true
  | String a s', String b t' =>
      if (nat_of_ascii b <? nat_of_ascii a)%nat then true
      else if (nat_of_ascii a <? nat_of_ascii b)%nat then false
      else str_gt s' t'
  end.

(** [a > b]: numbers with numbers, strings with strings, and lists with
    lists, by the first items that are unequal or else by the lengths; any
    other pair is a [TypeError]. *)
Fixpoint py_gt (a b : json) : result bool :=
  match a, b with
  | JStr s, JStr t => Ok (str_gt s t)
  | JList l, JList m =>
      (fix gt_items (l m : list json) : result bool :=
         match l, m with
         | [], _ => Ok false
         | _ :: _, [] => Ok true
         | x :: l', y :: m' =>
             if py_eq x y then gt_items l' m' else py_gt x y
         end) l m
  | _, _ =>
      match as_int a, as_int b with
      | Some x, Some y => Ok (y <? x)
      | _, _ => Raise TypeError
      end
  end.

(** The loop of [max]: an item replaces the maximum so far when it is
    greater. *)
Fixpoint max_from (best : json) (items : list json) : result json :=
  match items with
  | [] => Ok best
  | item :: rest =>
      greater ← py_gt item best;
      max_from (if greater : bool then item else best) rest
  end.

(** [max(items)]; the empty list is a [ValueError]. *)
Definition py_max (items : list json) : result json :=
  match items with
  | [] => Raise ValueError
  | first :: rest => max_from first rest
  end.

(** ** The legacy lookup of LogsAPI *)

Section Legacy.
Context {backend : Backend}.
Variable user_id : string.

(** lines 228-229 *)
Definition getUserLogs : M json := list_user_logs user_id ∅.

(** The comprehension of line 233,
    [[x['id'] for x in userLogs if x['name'] == logName]]. *)
Fixpoint select_named (logName : string) (userLogs : list json)
  : result (list json) :=
  match userLogs with
  | [] => Ok []
  | x :: rest =>
      name ← py_getitem x "name";
      if py_eq name (JStr logName) then
        log_id ← py_getitem x "id";
        ids ← select_named logName rest;
        Ok (log_id :: ids)
      else select_named logName rest
  end.

(** lines 231-234 *)
Definition chooseLog (logName : string) : M json :=
  userLogs ← getUserLogs;
  logs ← lift (py_iter userLogs);
  ids ← lift (select_named logName logs);
  lift (py_max ids).

End Legacy.

(** ** create_api (pylana/__init__.py, lines 13-26) *)

(** The two client classes are not among the sources: a client is recorded
    by the arguments it is built from, and the second kind by the [verify]
    its [_request] is bound to as well. *)
Inductive ApiClient : Type :=
| LanaAPI (url token api_key : json)
| LanaAPI2 (scheme host token port verify : json).

Definition create_api (scheme host token port verify compatibility url api_key
    : json) : ApiClient :=
  if truthy compatibility then
    let url :=
      if truthy url then url
      else JStr (py_str scheme +:+ "://" +:+ py_str host +:+ ":" +:+
                 py_str port +:+ "/") in
    LanaAPI url token api_key
  else LanaAPI2 scheme host token port verify.

(** ** Parts of a request *)

Definition upload_route : string :=
  "/api/logs/csv-case-attributes-event-semantics".

Definition has_event_parts (r : Request) : Prop :=
  is_Some (files r !! "eventCSVFile") /\ is_Some (data r !! "eventSemantics").

Definition has_case_file (r : Request) : Prop :=
  is_Some (files r !! "caseAttributeFile").

Definition has_case_semantics (r : Request) : Prop :=
  is_Some (data r !! "caseSemantics").

Definition has_time_zone (tz : string) (r : Request) : Prop :=
  data r !! "timeZone" = Some tz.

(** ** What a computation added to the log of the client *)

Section Observations.
Context {backend : Backend}.

Definition new_events {A} (m : M A) (w : World) : list Event :=
  drop (length (trace w)) (trace (m w).1).

Definition requests (t : list Event) : list Request :=
  omap (fun e => match e with Sent r => Some r | _ => None end) t.

(** The requests [m] hands to the HTTP layer when run in [w], in order. *)
Definition sent_by {A} (m : M A) (w : World) : list Request :=
  requests (new_events m w).

Definition is_json_decoded (e : Event) : bool :=
  match e with JsonDecoded _ => true | _ => false end.

Definition is_status_checked (e : Event) : bool :=
  match e with StatusChecked _ => true | _ => false end.

(** [m] only adds to the log, and every request it sends satisfies [P]. *)
Definition only_sends (P : Request -> Prop) {A} (m : M A) : Prop :=
  forall w, exists l,
    trace (m w).1 = trace w ++ l /\ Forall P (requests l).

(** [m] leaves the streams of the caller as they are. *)
Definition keeps_streams {A} (m : M A) : Prop :=
  forall w, streams (m w).1 = streams w.

(** What [read()] returns on an open stream: the content from the position
    on. *)
Definition unread (st : Stream) : string :=
  substring (position st) (String.length (content st) - position st)
    (content st).

(** The listing request. *)
Definition listing_request (kwargs : gmap string json) : Request :=
  mkRequest GET "/api/logs" ∅ ∅ kwargs.

(** The request [delete_logs] sends for one matched id. *)
Definition delete_request (log_id : json) : Request :=
  mkRequest DELETE ("/api/logs/" +:+ py_str log_id) ∅ ∅ ∅.

(** The listing request, answered with the JSON array [logs] under some HTTP
    status. *)
Definition lists (w : World) (kwargs : gmap string json) (logs : list json)
  : Prop :=
  exists rem status,
    transport (mkRequest GET "/api/logs" ∅ ∅ kwargs) (remote w)
    = (rem, Ok (mkResponse status (JsonBody (JList logs)))).

End Observations.

(** What [get_event_log] does once it has a log id (lines 192-194). *)
Definition read_event_log `{Backend} `{Tables}
    (get_event_csv : json -> M Response) (log_id : json)
    (kwargs : gmap string json) : M DataFrame :=
  resp ← get_event_csv log_id;
  _ ← bind_keywords ["dtype"] kwargs;
  lift (read_csv (resp_text resp) (<[ "dtype" := JStr "object" ]> kwargs)).

(** The listing request of [list_user_logs]. *)
Definition user_listing_request (user_id : string)
    (kwargs : gmap string json) : Request :=
  mkRequest GET ("/api/users/" +:+ user_id +:+ "/logs") ∅ ∅ kwargs.

(** A log reference [{id, name, ...}] of the listing. *)
Definition log_ref (entry : json) : option (json * string) :=
  match py_getitem entry "id", py_getitem entry "name" with
  | Ok i, Ok (JStr n) => Some (i, n)
  | _, _ => None
  end.

(** The catalog a listing denotes, when every entry is a log reference. *)
Definition catalog_of (logs : list json) : option (list (json * string)) :=
  mapM log_ref logs.

(** The logs of a catalog whose names the pattern finds a match in, and the
    ones whose names are the given string. *)
Definition matching `{PyRe} (rc : pattern) (catalog : list (json * string))
  : list (json * string) :=
  filter (fun l => re_search rc l.2 = true) catalog.

Definition named (name : string) (catalog : list (json * string))
  : list (json * string) :=
  filter (fun l => l.2 = name) catalog.

(** ** Fixtures: a literal matcher and a scripted service *)

Module Fixture.

(** The character codes with a special meaning in a pattern: the dot, the
    caret, the dollar, the star, the plus, the question mark, the braces,
    the brackets, the backslash, the bar and the parentheses. *)
Definition re_special : list nat :=
  [46; 94; 36; 42; 43; 63; 123; 125; 91; 93; 92; 124; 40; 41]%nat.

Definition is_literal (p : string) : bool :=
  forallb (fun c => negb (existsb (Nat.eqb (nat_of_ascii c)) re_special))
          (list_ascii_of_string p).

Fixpoint starts_with (p s : string) : bool :=
  match p, s with
  | EmptyString, _ => true
  | String a p', String b s' => Ascii.eqb a b && starts_with p' s'
  | String _ _, EmptyString => false
  end.

Fixpoint occurs_in (p s : string) : bool :=
  starts_with p s ||
  match s with
  | EmptyString => false
  | String _ s' => occurs_in p s'
  end.

(** The patterns without metacharacters: such a pattern matches its own text
    and nothing else, so a search succeeds exactly on the strings that
    contain it.  The other patterns are outside this fixture and count as
    rejected. *)
#[export] Instance literal_re : PyRe := {|
  pattern := string;
  re_compile := fun p => if is_literal p then Some p else None;
  re_search := occurs_in
|}.

(** A service that holds logs as [(id, name)] pairs, answers the listing
    with a chosen status, refuses to delete the protected ids and accepts
    every upload. *)
Record Service : Type := mkService {
  logs : list (string * string);
  listing_status : Z;
  protected : list string
}.

Definition listing_of (s : Service) : list json :=
  map (fun l => JDict [("id", JStr l.1); ("name", JStr l.2)]) (logs s).

Definition serve (r : Request) (s : Service) : Service * result Response :=
  match meth r with
  | GET =>
      if String.eqb (route r) "/api/logs"
      then (s, Ok (mkResponse (listing_status s) (JsonBody (JList (listing_of s)))))
      else (s, Ok (mkResponse 404 (TextBody "not found")))
  | DELETE =>
      match find (fun l => String.eqb (route r) ("/api/logs/" +:+ l.1)) (logs s) with
      | Some l =>
          if existsb (String.eqb l.1) (protected s)
          then (s, Ok (mkResponse 500 (TextBody "protected")))
          else (mkService
                  (filter (fun l' => l'.1 ≠ l.1) (logs s))
                  (listing_status s) (protected s),
                Ok (mkResponse 200 (TextBody "deleted")))
      | None => (s, Ok (mkResponse 404 (TextBody "not found")))
      end
  | POST => (s, Ok (mkResponse 200 (JsonBody (JDict []))))
  end.

#[export] Instance scripted : Backend := {|
  Remote := Service;
  transport := serve
|}.

(** Tables kept as their CSV text, with empty descriptors. *)
#[export] Instance csv_tables : Tables := {|
  DataFrame := string;
  to_csv := fun df => df;
  read_csv := fun text _ => Ok text;
  create_event_semantics_from_df := fun df _ => Ok (df, JList []);
  create_case_semantics_from_df := fun df => Ok (df, JList [])
|}.

Definition world_of (s : Service) (ss : gmap nat Stream) : World :=
  mkWorld ss s [].

(** Three logs, two of them with an [a] in the name. *)
Definition three_logs : list (string * string) :=
  [("1", "a1"); ("2", "a2"); ("3", "b1")].

(** One log named [log] and one whose name merely contains [log]. *)
Definition similar_names : list (string * string) :=
  [("1", "log"); ("2", "log2")].

(** Two open streams of the caller. *)
Definition two_streams : gmap nat Stream :=
  {[ 0%nat := mkStream "case,activity" 0 false 11;
     1%nat := mkStream "case,age" 0 false 12 ]}.

(** [get_event_csv] as the request for the enriched CSV. *)
Definition event_csv (log_id : json) : M Response :=
  request_event_csv log_id ∅.

(** A service that answers every request with the response it holds. *)
Definition canned : Backend := {|
  Remote := Response;
  transport := fun _ resp => (resp, Ok resp)
|}.

Definition canned_world (resp : Response) : @World canned :=
  @mkWorld canned ∅ resp [].

(** Tables kept as their CSV text, whose inference refuses the empty table. *)
Definition strict_tables : Tables := {|
  DataFrame := string;
  to_csv := fun df => df;
  read_csv := fun text _ => Ok text;
  create_event_semantics_from_df :=
    fun df _ => if String.eqb df "" then Raise ValueError else Ok (df, JList []);
  create_case_semantics_from_df :=
    fun df => if String.eqb df "" then Raise ValueError else Ok (df, JList [])
|}.

End Fixture.

(** * Properties *)

(** ** How the primitives run *)

Create HintDb monad.
#[export] Hint Unfold mbind mret M_mbind M_mret bind ret raise lift emit : monad.

(** Runs the monadic plumbing of the goal. *)
Ltac run := repeat progress (autounfold with monad; cbn beta iota zeta).

Section Running.
Context {backend : Backend}.

Lemma new_events_app {A} (m : M A) (w : World) (l : list Event) :
  trace (m w).1 = trace w ++ l -> new_events m w = l.
Proof.
  intros E. unfold new_events. rewrite E. apply drop_app_length.
Qed.

Lemma requests_app (l k : list Event) :
  requests (l ++ k) = requests l ++ requests k.
Proof. unfold requests. apply omap_app. Qed.

Lemma handle_response_run (m : M Response) (w : World) :
  handle_response m w =
  match m w with
  | (w', Ok resp) =>
      (mkWorld (streams w') (remote w') (trace w' ++ [StatusChecked resp]),
       if is_success (status_code resp) then Ok resp
       else Raise (RequestError (status_code resp) (body resp)))
  | (w', Raise e) => (w', Raise e)
  end.
Proof.
  unfold handle_response, mbind, M_mbind, bind, emit.
  destruct (m w) as [w' [resp|e]]; [|reflexivity].
  destruct (is_success (status_code resp)); reflexivity.
Qed.

Lemma api_post_run rt fs dt kwargs (w : World) :
  api_post rt fs dt kwargs w =
  if distinct_keywords ["files"; "data"] kwargs
  then send (mkRequest POST rt fs dt kwargs) w
  else (w, Raise TypeError).
Proof.
  unfold api_post, bind_keywords, mbind, M_mbind, bind.
  destruct (distinct_keywords _ kwargs); reflexivity.
Qed.

Lemma send_trace (r : Request) (w : World) :
  trace (send r w).1 = trace w ++ [Sent r] /\ streams (send r w).1 = streams w.
Proof.
  unfold send. destruct (transport r (remote w)) as [rem res]. split; reflexivity.
Qed.

End Running.

(** ** prepare_semantics *)

(** C10: [prepare_semantics] is idempotent; it is the identity on strings and
    the JSON serialization on lists. *)
Theorem prepare_semantics_idempotent :
  (forall x : json,
     prepare_semantics (JStr (prepare_semantics x)) = prepare_semantics x) /\
  (forall s : string, prepare_semantics (JStr s) = s) /\
  (forall l : list json, prepare_semantics (JList l) = json_dumps (JList l)).
Proof.
  split; [|split]; intros; reflexivity.
Qed.

Example prepare_semantics_descriptor :
  prepare_semantics (JList [JDict [("name", JStr "Case"); ("idx", JInt 0)]])
  = "[{" +:+ dquote +:+ "name" +:+ dquote +:+ ": " +:+ dquote +:+ "Case"
      +:+ dquote +:+ ", " +:+ dquote +:+ "idx" +:+ dquote +:+ ": 0}]".
Proof. reflexivity. Qed.

(** ** upload_event_log *)

Section Upload.
Context {backend : Backend}.

(** The one request of an upload, or none when a keyword is given twice. *)
Lemma upload_event_log_sent name log ls ca cas kwargs (w : World) :
  sent_by (upload_event_log name log ls ca cas kwargs) w =
  if distinct_keywords ["files"; "data"] kwargs then
    [mkRequest POST upload_route
       (upload_files name log ca) (upload_semantics name ls cas) kwargs]
  else [].
Proof.
  unfold sent_by, upload_event_log, new_events. cbn zeta.
  rewrite handle_response_run, api_post_run.
  destruct (distinct_keywords _ kwargs); [|simpl; by rewrite drop_all].
  unfold send. destruct (transport _ (remote w)) as [rem [resp|e]]; simpl.
  - rewrite <- app_assoc, drop_app_length. reflexivity.
  - rewrite drop_app_length. reflexivity.
Qed.

End Upload.

(** The entries of the two dictionaries of the request. *)
Lemma files_without_case {V} (y : V) :
  let m : gmap string V := {[ "eventCSVFile" := y ]} in
  m !! "eventCSVFile" = Some y /\ m !! "caseAttributeFile" = None.
Proof. split; reflexivity. Qed.

Lemma files_with_case {V} (x y : V) :
  let m : gmap string V :=
    {[ "caseAttributeFile" := x ]} ∪ {[ "eventCSVFile" := y ]} in
  m !! "eventCSVFile" = Some y /\ m !! "caseAttributeFile" = Some x.
Proof. split; reflexivity. Qed.

Lemma data_without_case (a b c : string) :
  let m : gmap string string :=
    <[ "eventSemantics" := a ]> (<[ "logName" := b ]> (<[ "timeZone" := c ]> ∅)) in
  m !! "eventSemantics" = Some a /\ m !! "logName" = Some b /\
  m !! "timeZone" = Some c /\ m !! "caseSemantics" = None.
Proof. repeat split; reflexivity. Qed.

Lemma data_with_case (s a b c : string) :
  let m : gmap string string :=
    {[ "caseSemantics" := s ]}
      ∪ <[ "eventSemantics" := a ]> (<[ "logName" := b ]> (<[ "timeZone" := c ]> ∅)) in
  m !! "eventSemantics" = Some a /\ m !! "logName" = Some b /\
  m !! "timeZone" = Some c /\ m !! "caseSemantics" = Some s.
Proof. repeat split; reflexivity. Qed.

Lemma upload_files_event name log ca :
  upload_files name log ca !! "eventCSVFile" = Some (name, JStr log, "text/csv").
Proof.
  unfold upload_files. destruct (truthy ca).
  - apply (files_with_case (V := FilePart)).
  - apply (files_without_case (V := FilePart)).
Qed.

Lemma upload_files_case name log ca :
  upload_files name log ca !! "caseAttributeFile" =
  if truthy ca then Some (name +:+ "_case_attributes", ca, "text/csv") else None.
Proof.
  unfold upload_files. destruct (truthy ca).
  - apply (files_with_case (V := FilePart)).
  - apply (files_without_case (V := FilePart)).
Qed.

Lemma upload_semantics_event name ls cas :
  upload_semantics name ls cas !! "eventSemantics" = Some (prepare_semantics ls).
Proof.
  unfold upload_semantics. destruct (truthy cas).
  - apply data_with_case.
  - apply data_without_case.
Qed.

Lemma upload_semantics_time_zone name ls cas :
  upload_semantics name ls cas !! "timeZone" = Some "Europe/Berlin".
Proof.
  unfold upload_semantics. destruct (truthy cas).
  - apply data_with_case.
  - apply data_without_case.
Qed.

Lemma upload_semantics_case name ls cas :
  upload_semantics name ls cas !! "caseSemantics" =
  if truthy cas then Some (prepare_semantics cas) else None.
Proof.
  unfold upload_semantics. destruct (truthy cas).
  - apply data_with_case.
  - apply data_without_case.
Qed.

Lemma upload_request_parts rt name log ls ca cas kwargs :
  let r := mkRequest POST rt (upload_files name log ca)
             (upload_semantics name ls cas) kwargs in
  has_event_parts r /\
  (has_case_file r <-> truthy ca = true) /\
  (has_case_semantics r <-> truthy cas = true) /\
  ((has_case_file r <-> has_case_semantics r) <-> truthy ca = truthy cas).
Proof.
  unfold has_event_parts, has_case_file, has_case_semantics; cbn [files data].
  rewrite upload_files_event, upload_files_case, upload_semantics_event,
    upload_semantics_case.
  destruct (truthy ca), (truthy cas); rewrite ?is_Some_alt; intuition congruence.
Qed.

Section UploadParts.
Context {backend : Backend}.

(** C1 (amended): the request of [upload_event_log] always has the event
    file and the event semantics; it has the case-attribute file exactly when
    [case_attributes] is true and the case semantics exactly when
    [case_attribute_semantics] is true, each on its own, so the two case
    parts come as a pair exactly when the two arguments have the same truth
    value.  One request is sent unless [kwargs] repeats [files] or [data]. *)
Theorem upload_event_log_parts name log ls ca cas kwargs (w : World) :
  let sent := sent_by (upload_event_log name log ls ca cas kwargs) w in
  length sent = (if distinct_keywords ["files"; "data"] kwargs then 1 else 0)%nat /\
  Forall (fun r =>
            has_event_parts r /\
            (has_case_file r <-> truthy ca = true) /\
            (has_case_semantics r <-> truthy cas = true) /\
            ((has_case_file r <-> has_case_semantics r)
             <-> truthy ca = truthy cas)) sent.
Proof.
  cbn zeta. rewrite upload_event_log_sent.
  destruct (distinct_keywords _ kwargs); [|split; [reflexivity|constructor]].
  split; [reflexivity|].
  constructor; [|constructor].
  apply upload_request_parts.
Qed.

End UploadParts.

(** ** What composed computations send *)

Section Sending.
Context {backend : Backend}.

Lemma only_sends_sent_by (P : Request -> Prop) {A} (m : M A) (w : World) :
  only_sends P m -> Forall P (sent_by m w).
Proof.
  intros H. destruct (H w) as (l & E & HP).
  unfold sent_by. by rewrite (new_events_app _ _ _ E).
Qed.

Lemma only_sends_ret P {A} (a : A) : only_sends P (ret a).
Proof. intros w. exists []. split; [symmetry; apply app_nil_r|constructor]. Qed.

Lemma only_sends_raise P {A} (e : exn) : only_sends P (raise (A := A) e).
Proof. intros w. exists []. split; [symmetry; apply app_nil_r|constructor]. Qed.

Lemma only_sends_lift P {A} (r : result A) : only_sends P (lift r).
Proof. intros w. exists []. split; [symmetry; apply app_nil_r|constructor]. Qed.

Lemma only_sends_bind P {A B} (m : M A) (f : A -> M B) :
  only_sends P m -> (forall a, only_sends P (f a)) -> only_sends P (bind m f).
Proof.
  intros Hm Hf w. unfold bind.
  destruct (Hm w) as (l & E & HP).
  destruct (m w) as [w' [a|e]]; simpl in *.
  - destruct (Hf a w') as (l' & E' & HP').
    exists (l ++ l'). split.
    + rewrite E', E. symmetry. apply app_assoc.
    + rewrite requests_app. by apply Forall_app.
  - by exists l.
Qed.

Lemma only_sends_emit (P : Request -> Prop) (e : Event) :
  (forall r, e = Sent r -> P r) -> only_sends P (emit e).
Proof.
  intros He w. exists [e]. split; [reflexivity|].
  destruct e; try constructor; [by apply He | constructor].
Qed.

Lemma only_sends_send (P : Request -> Prop) (r : Request) :
  P r -> only_sends P (send r).
Proof.
  intros Hr w. exists [Sent r]. split; [apply send_trace|].
  by repeat constructor.
Qed.

Lemma only_sends_bind_keywords P explicit kwargs :
  only_sends P (bind_keywords explicit kwargs).
Proof.
  unfold bind_keywords. destruct (distinct_keywords explicit kwargs).
  - apply only_sends_ret.
  - apply only_sends_raise.
Qed.

Lemma only_sends_handle_response P (m : M Response) :
  only_sends P m -> only_sends P (handle_response m).
Proof.
  intros Hm. unfold handle_response.
  apply only_sends_bind; [done|]. intros resp.
  apply only_sends_bind; [by apply only_sends_emit|]. intros _.
  destruct (is_success _); [apply only_sends_ret|apply only_sends_raise].
Qed.

Lemma only_sends_py_hash P (h : nat) : only_sends P (py_hash h).
Proof.
  intros w. exists []. unfold py_hash.
  destruct (streams w !! h); (split; [symmetry; apply app_nil_r|constructor]).
Qed.

Lemma only_sends_stream_read P (h : nat) : only_sends P (stream_read h).
Proof.
  intros w. unfold stream_read.
  destruct (streams w !! h) as [st|];
    [destruct (closed st)|];
    first [ by exists [StreamRead h]; split; [reflexivity|constructor]
          | by exists []; split; [symmetry; apply app_nil_r|constructor] ].
Qed.

Lemma only_sends_api_post (P : Request -> Prop) rt fs dt kwargs :
  P (mkRequest POST rt fs dt kwargs) -> only_sends P (api_post rt fs dt kwargs).
Proof.
  intros Hr. unfold api_post.
  apply only_sends_bind; [apply only_sends_bind_keywords|].
  intros _. by apply only_sends_send.
Qed.

End Sending.

(** ** The time zone of an upload *)

Section TimeZone.
Context {backend : Backend} {tables : Tables}.

Lemma upload_event_log_time_zone name log ls ca cas kwargs :
  only_sends (has_time_zone "Europe/Berlin")
    (upload_event_log name log ls ca cas kwargs).
Proof.
  unfold upload_event_log. apply only_sends_handle_response.
  apply only_sends_api_post. apply upload_semantics_time_zone.
Qed.

Lemma upload_event_log_stream_time_zone log ls case cs prefix kwargs :
  only_sends (has_time_zone "Europe/Berlin")
    (upload_event_log_stream log ls case cs prefix kwargs).
Proof.
  unfold upload_event_log_stream. apply only_sends_handle_response.
  apply only_sends_bind; [apply only_sends_py_hash|]. intros h.
  apply only_sends_bind; [apply only_sends_stream_read|]. intros log_text.
  apply only_sends_bind; [apply only_sends_stream_read|]. intros case_text.
  apply only_sends_bind; [apply only_sends_bind_keywords|]. intros _.
  apply upload_event_log_time_zone.
Qed.

Lemma upload_event_log_df_time_zone name df_log df_case time_format kwargs :
  only_sends (has_time_zone "Europe/Berlin")
    (upload_event_log_df name df_log df_case time_format kwargs).
Proof.
  unfold upload_event_log_df. apply only_sends_handle_response.
  apply only_sends_bind; [apply only_sends_lift|]. intros [df_events es].
  apply only_sends_bind; [apply only_sends_lift|]. intros [df_cases cs].
  apply only_sends_bind; [apply only_sends_bind_keywords|]. intros _.
  apply upload_event_log_time_zone.
Qed.

(** C9: every request an upload sends, through [upload_event_log] itself or
    through the stream and the data-frame variants, has the [timeZone] field
    ["Europe/Berlin"], whatever the name, the tables, the semantics and the
    keyword arguments are; [upload_event_log] sends one request unless the
    keyword arguments repeat [files] or [data]. *)
Theorem upload_time_zone_fixed :
  (forall name log ls ca cas kwargs (w : World),
     Forall (has_time_zone "Europe/Berlin")
       (sent_by (upload_event_log name log ls ca cas kwargs) w) /\
     length (sent_by (upload_event_log name log ls ca cas kwargs) w)
     = (if distinct_keywords ["files"; "data"] kwargs then 1 else 0)%nat) /\
  (forall log ls case cs prefix kwargs (w : World),
     Forall (has_time_zone "Europe/Berlin")
       (sent_by (upload_event_log_stream log ls case cs prefix kwargs) w)) /\
  (forall name df_log df_case time_format kwargs (w : World),
     Forall (has_time_zone "Europe/Berlin")
       (sent_by (upload_event_log_df name df_log df_case time_format kwargs) w)).
Proof.
  split; [|split]; intros.
  - split.
    + apply only_sends_sent_by, upload_event_log_time_zone.
    + rewrite upload_event_log_sent.
      by destruct (distinct_keywords _ kwargs).
  - apply only_sends_sent_by, upload_event_log_stream_time_zone.
  - apply only_sends_sent_by, upload_event_log_df_time_zone.
Qed.

End TimeZone.

(** ** Looking logs up by name *)

Section Lookup.
Context {re : PyRe} {backend : Backend}.

Lemma select_ids_catalog (rc : pattern) (logs : list json)
    (catalog : list (json * string)) :
  catalog_of logs = Some catalog ->
  select_ids rc logs = Ok (map fst (matching rc catalog)).
Proof.
  unfold catalog_of. rewrite mapM_Some. intros H.
  induction H as [|entry [i n] logs catalog Href _ IH]; [reflexivity|].
  unfold log_ref in Href.
  destruct (py_getitem entry "id") as [i'|] eqn:Ei; [|discriminate].
  destruct (py_getitem entry "name") as [[| | |n'| |]|] eqn:En; try discriminate.
  injection Href as -> ->.
  unfold matching in *. rewrite filter_cons. cbn [snd].
  cbn [select_ids]. rewrite En, Ei. cbn [mbind result_mbind result_bind py_search].
  destruct (re_search rc n) eqn:Es.
  - rewrite decide_True by done. by rewrite IH.
  - rewrite decide_False by (by intros ?). exact IH.
Qed.

Lemma get_log_ids_run (w : World) kwargs logs catalog name rc :
  lists w kwargs logs ->
  catalog_of logs = Some catalog ->
  re_compile name = Some rc ->
  exists rem resp,
    body resp = JsonBody (JList logs) /\
    get_log_ids (Some name) kwargs w =
    (mkWorld (streams w) rem
       (trace w ++ [Sent (listing_request kwargs); JsonDecoded resp]),
     Ok (map fst (matching rc catalog))).
Proof.
  intros (rem & status & Ht) Hc Hre.
  exists rem, (mkResponse status (JsonBody (JList logs))).
  split; [reflexivity|].
  unfold get_log_ids, api_get, send, py_re_compile, resp_json. run.
  rewrite Ht, Hre. run. cbn [body remote streams trace py_iter].
  rewrite (select_ids_catalog rc logs catalog Hc).
  by rewrite <- app_assoc.
Qed.

Lemma get_log_id_run (w : World) kwargs logs catalog name rc :
  lists w kwargs logs ->
  catalog_of logs = Some catalog ->
  re_compile name = Some rc ->
  (get_log_id (Some name) kwargs w).2 =
  match matching rc catalog with
  | [l] => Ok l.1
  | ls => Raise (Exception (found_message (length ls) (Some name)))
  end.
Proof.
  intros Hl Hc Hre.
  destruct (get_log_ids_run w kwargs logs catalog name rc Hl Hc Hre)
    as (rem & resp & _ & E).
  unfold get_log_id, mbind, M_mbind, bind. rewrite E.
  destruct (matching rc catalog) as [|l [|l' ls]]; cbn; try reflexivity.
  by rewrite length_map.
Qed.

(** A name that is no pattern ends the lookup before any matching. *)
Remark get_log_id_rejected_pattern (w : World) kwargs name rem resp :
  transport (listing_request kwargs) (remote w) = (rem, Ok resp) ->
  re_compile name = None ->
  (get_log_id (Some name) kwargs w).2 = Raise ReError.
Proof.
  intros Ht Hre. unfold get_log_id, get_log_ids, api_get, send, py_re_compile,
    listing_request in *. run.
  by rewrite Ht, Hre.
Qed.

End Lookup.

Section UniqueName.
Context {re : PyRe} {backend : Backend} {tables : Tables}.
Variable get_event_csv : json -> M Response.


(** C6 (amended): without a true [log_id], and with a name that matches zero
    or several logs of the catalog, [get_event_log] fails with the lookup
    error of [get_log_id] (the ambiguous-name error of the taxonomy), not
    with an error of the not-found kind. *)
Theorem get_event_log_unresolved_name (w : World) kwargs log_id logs catalog
    name rc :
  truthy log_id = false ->
  lists w ∅ logs ->
  catalog_of logs = Some catalog ->
  re_compile name = Some rc ->
  length (matching rc catalog) ≠ 1%nat ->
  let out := (get_event_log get_event_csv (Some name) log_id kwargs w).2 in
  out = Raise (Exception
                 (found_message (length (matching rc catalog)) (Some name))) /\
  raises_kind KAmbiguousNameError out /\
  ~ raises_kind KNotFoundError out.
Proof.
  intros Ht Hl Hc Hre Hn out.
  pose proof (get_log_id_run w ∅ logs catalog name rc Hl Hc Hre) as E.
  assert (out = Raise (Exception
            (found_message (length (matching rc catalog)) (Some name)))) as ->.
  { subst out. unfold get_event_log. rewrite Ht. run.
    destruct (get_log_id (Some name) ∅ w) as [w' r]. cbn in E. subst r.
    by destruct (matching rc catalog) as [|l [|l' ls]]. }
  split; [done|]. split.
  - by eexists.
  - intros (e & [= <-] & Hk). discriminate.
Qed.

End UniqueName.

(** ** Deleting the logs a pattern matches *)

Section Deleting.
Context {re : PyRe} {backend : Backend}.

Lemma delete_log_run (log_id : json) kwargs (w : World) :
  exists l,
    trace (delete_log log_id kwargs w).1 = trace w ++ l /\
    requests l = [mkRequest DELETE ("/api/logs/" +:+ py_str log_id) ∅ ∅ kwargs] /\
    (forall resp, (delete_log log_id kwargs w).2 = Ok resp ->
                  is_success (status_code resp) = true).
Proof.
  unfold delete_log. rewrite handle_response_run. unfold api_delete, send.
  destruct (transport _ (remote w)) as [rem [resp|e]]; cbn.
  - eexists [_; _]. rewrite <- app_assoc. split; [reflexivity|].
    split; [reflexivity|].
    destruct (is_success (status_code resp)) eqn:Hs; [|discriminate].
    by intros ? [= <-].
  - eexists [_]. split; [reflexivity|]. split; [reflexivity|discriminate].
Qed.

(** The deletions of a comprehension: a prefix of the ids gets its request,
    in order; the whole list when every deletion succeeds, and otherwise the
    ids up to the one whose deletion raised. *)
Lemma for_each_delete_run (ids : list json) (w : World) :
  let deletions := for_each (fun log_id => delete_log log_id ∅) ids in
  exists k l,
    trace (deletions w).1 = trace w ++ l /\
    requests l = map delete_request (take k ids) /\
    match (deletions w).2 with
    | Ok resps =>
        k = length ids /\ length resps = length ids /\
        Forall (fun r => is_success (status_code r) = true) resps
    | Raise e =>
        (0 < k <= length ids)%nat /\
        exists log_id w', ids !! (k - 1)%nat = Some log_id /\
                          (delete_log log_id ∅ w').2 = Raise e
    end.
Proof.
  cbn zeta. revert w. induction ids as [|log_id ids IH]; intros w.
  - exists 0%nat, []. cbn. rewrite app_nil_r. repeat split; constructor.
  - cbn [for_each]. run.
    destruct (delete_log_run log_id ∅ w) as (l1 & E1 & R1 & S1).
    destruct (delete_log log_id ∅ w) as [w1 [resp|e]] eqn:Ed; cbn in E1, S1.
    + destruct (IH w1) as (k & l2 & E2 & R2 & H2).
      destruct (for_each _ ids w1) as [w2 [resps|e]]; cbn in E2, H2 |- *.
      * exists (S k), (l1 ++ l2). rewrite E2, E1, app_assoc, requests_app, R1, R2.
        destruct H2 as (-> & Hlen & Hall).
        repeat split; cbn; try lia. constructor; [by apply S1|done].
      * exists (S k), (l1 ++ l2). rewrite E2, E1, app_assoc, requests_app, R1, R2.
        destruct H2 as (Hk & id' & w' & Hid & He).
        repeat split; cbn; try lia.
        exists id', w'. split; [|done].
        destruct k as [|k]; [lia|]. cbn in Hid |- *.
        by rewrite Nat.sub_0_r in Hid.
    + exists 1%nat, l1. cbn. rewrite take_0.
      repeat split; try done; try lia.
      exists log_id, w. split; [done|]. by rewrite Ed.
Qed.


(** No deletion request of [delete_logs] carries an option. *)
Corollary for_each_delete_options (ids : list json) (w : World) :
  Forall (fun r => options r = ∅)
    (sent_by (for_each (fun log_id => delete_log log_id ∅) ids) w).
Proof.
  destruct (for_each_delete_run ids w) as (k & l & E & R & _).
  unfold sent_by. rewrite (new_events_app _ _ _ E), R.
  apply Forall_map, Forall_forall. by intros.
Qed.

End Deleting.

(** ** Streams handed to an upload *)

Section Streams.
Context {backend : Backend}.

Lemma handle_response_streams (m : M Response) (w : World) :
  streams (handle_response m w).1 = streams (m w).1.
Proof.
  rewrite handle_response_run. by destruct (m w) as [w' [resp|e]].
Qed.

Lemma only_sends_trace P {A} (m : M A) (w : World) :
  only_sends P m -> exists l, trace (m w).1 = trace w ++ l.
Proof. intros H. destruct (H w) as (l & E & _). by exists l. Qed.

Lemma upload_event_log_streams name log ls ca cas kwargs :
  keeps_streams (upload_event_log name log ls ca cas kwargs).
Proof.
  intros w. unfold upload_event_log. cbn zeta.
  rewrite handle_response_streams, api_post_run.
  destruct (distinct_keywords _ kwargs); [apply send_trace|reflexivity].
Qed.

Lemma stream_read_run (h : nat) (st : Stream) (w : World) :
  streams w !! h = Some st ->
  closed st = false ->
  stream_read h w =
  (mkWorld (<[h := at_end st]> (streams w)) (remote w)
     (trace w ++ [StreamRead h]),
   Ok (substring (position st)
         (String.length (content st) - position st) (content st))).
Proof. intros Hh Hc. unfold stream_read. by rewrite Hh, Hc. Qed.

(** The world in which the request of [upload_event_log_stream] is built:
    both streams have been read to their ends. *)
Lemma upload_event_log_stream_streams (w : World) log ls case cs prefix kwargs
    (sl sc : Stream) :
  streams w !! log = Some sl -> closed sl = false ->
  streams w !! case = Some sc -> closed sc = false ->
  streams (upload_event_log_stream log ls case cs prefix kwargs w).1
  = <[case := at_end sc]> (<[log := at_end sl]> (streams w)) /\
  exists rest,
    new_events (upload_event_log_stream log ls case cs prefix kwargs) w
    = StreamRead log :: StreamRead case :: rest.
Proof.
  intros Hl Hlo Hc Hco.
  assert (exists sc', (<[log := at_end sl]> (streams w)) !! case = Some sc' /\
                      closed sc' = false /\ at_end sc' = at_end sc)
    as (sc' & Hc' & Hco' & Hend).
  { destruct (decide (case = log)) as [-> | Hne].
    - exists (at_end sl). rewrite lookup_insert_eq.
      rewrite Hl in Hc. injection Hc as ->.
      repeat split. unfold at_end; cbn. f_equal. lia.
    - exists sc. by rewrite lookup_insert_ne. }
  unfold upload_event_log_stream.
  set (inner := mbind _ _).
  set (w2 := mkWorld (<[case := at_end sc]> (<[log := at_end sl]> (streams w)))
               (remote w) (trace w ++ [StreamRead log; StreamRead case])).
  assert (exists text1 text2,
            inner w =
            if distinct_keywords upload_event_log_params kwargs
            then upload_event_log (prefix +:+ pretty (obj_hash sl)) text1 ls
                   (JStr text2) cs kwargs w2
            else (w2, Raise TypeError)) as (text1 & text2 & Ei).
  { eexists _, _. subst inner. unfold py_hash. run. rewrite Hl. run.
    rewrite (stream_read_run log sl w Hl Hlo). run.
    erewrite stream_read_run by (cbn [streams]; eauto). run.
    cbn [streams remote trace]. rewrite Hend, <- app_assoc.
    unfold bind_keywords.
    by destruct (distinct_keywords upload_event_log_params kwargs). }
  unfold new_events.
  rewrite handle_response_streams, handle_response_run, Ei.
  destruct (distinct_keywords upload_event_log_params kwargs).
  - set (up := upload_event_log _ _ _ _ _ _).
    pose proof (upload_event_log_streams _ _ _ _ _ _ w2 : streams (up w2).1 = _)
      as Hs.
    destruct (only_sends_trace _ up w2
                (upload_event_log_time_zone _ _ _ _ _ _)) as (l & El).
    destruct (up w2) as [w3 [resp|e]]; cbn in Hs, El |- *.
    all: split; [exact Hs|].
    all: rewrite El; subst w2; cbn [trace];
      rewrite <- !app_assoc, drop_app_length; cbn; eauto.
  - cbn. split; [reflexivity|].
    rewrite drop_app_length; cbn; eauto.
Qed.

End Streams.

Section StreamsStayOpen.
Context {backend : Backend}.

(** C8: [upload_event_log_stream] reads the two open streams it is given and
    does not close them: after the call each of them is still open, with the
    content and the identity it had and its position moved to the end, and no
    other stream of the caller has changed. *)
Theorem upload_event_log_stream_keeps_open (w : World) log ls case cs prefix
    kwargs (sl sc : Stream) :
  streams w !! log = Some sl -> closed sl = false ->
  streams w !! case = Some sc -> closed sc = false ->
  let w' := (upload_event_log_stream log ls case cs prefix kwargs w).1 in
  (exists rest,
     new_events (upload_event_log_stream log ls case cs prefix kwargs) w
     = StreamRead log :: StreamRead case :: rest) /\
  (forall h st,
     h = log \/ h = case -> streams w !! h = Some st ->
     exists st', streams w' !! h = Some st' /\ closed st' = false /\
                 content st' = content st /\ obj_hash st' = obj_hash st /\
                 position st' = Nat.max (position st)
                                  (String.length (content st))) /\
  (forall h, h ≠ log -> h ≠ case -> streams w' !! h = streams w !! h).
Proof.
  intros Hl Hlo Hc Hco w'.
  destruct (upload_event_log_stream_streams w log ls case cs prefix kwargs
              sl sc Hl Hlo Hc Hco) as (Hs & Hr).
  fold w' in Hs. split; [exact Hr|]. split.
  - intros h st Hh Hst. exists (at_end st). rewrite Hs.
    split; [|by repeat split].
    destruct (decide (h = case)) as [-> | Hne].
    + rewrite lookup_insert_eq. congruence.
    + destruct Hh as [-> | ->]; [|done].
      rewrite lookup_insert_ne, lookup_insert_eq by done. congruence.
  - intros h H1 H2. rewrite Hs. by rewrite !lookup_insert_ne.
Qed.

(** A response outside the success range never reaches the caller of a
    wrapped call: the status check raises [RequestError] and the body is not
    decoded. *)
Lemma handle_response_rejects (m : M Response) (w w' : World) resp :
  m w = (w', Ok resp) ->
  is_success (status_code resp) = false ->
  handle_response m w =
  (mkWorld (streams w') (remote w') (trace w' ++ [StatusChecked resp]),
   Raise (RequestError (status_code resp) (body resp))).
Proof. intros Hm Hs. by rewrite handle_response_run, Hm, Hs. Qed.

Lemma list_logs_rejects kwargs (w : World) rem resp :
  transport (listing_request kwargs) (remote w) = (rem, Ok resp) ->
  is_success (status_code resp) = false ->
  list_logs kwargs w =
  (mkWorld (streams w) rem
     (trace w ++ [Sent (listing_request kwargs); StatusChecked resp]),
   Raise (RequestError (status_code resp) (body resp))).
Proof.
  intros Ht Hs. unfold list_logs, expect_json, listing_request in *. run.
  erewrite handle_response_rejects; [|unfold api_get, send; by rewrite Ht|done].
  cbn. by rewrite <- app_assoc.
Qed.

End StreamsStayOpen.

(** * The properties on the fixtures *)

Import Fixture.

(** C1, as stated, fails: with case attributes and no case semantics the
    request has the case-attribute file and no case semantics. *)
Lemma upload_event_log_unpaired_case_file :
  exists r,
    sent_by (upload_event_log "log" "case,activity" (JList [])
               (JStr "case,age") JNull ∅)
            (world_of (mkService [] 200 []) ∅) = [r] /\
    has_case_file r /\ ~ has_case_semantics r.
Proof.
  eexists. split; [by rewrite upload_event_log_sent|].
  unfold has_case_file, has_case_semantics; cbn [files data].
  rewrite upload_files_case, upload_semantics_case. cbn.
  split; [by eexists|]. by intros [? ?].
Qed.

(** C2: [get_log_ids] decodes the body of a listing answered with status
    500 and returns ids from it, without a status check and without raising
    [RequestError]; [list_logs], on the same answer, raises [RequestError]
    before any decoding. *)
Theorem get_log_ids_decodes_error_response :
  let w := world_of (mkService three_logs 500 []) ∅ in
  let listing := mkResponse 500 (JsonBody (JList (listing_of (remote w)))) in
  get_log_ids (Some "a") ∅ w =
    (mkWorld ∅ (remote w) [Sent (listing_request ∅); JsonDecoded listing],
     Ok [JStr "1"; JStr "2"]) /\
  existsb is_status_checked (new_events (get_log_ids (Some "a") ∅) w) = false /\
  existsb is_json_decoded (new_events (get_log_ids (Some "a") ∅) w) = true /\
  list_logs ∅ w =
    (mkWorld ∅ (remote w) [Sent (listing_request ∅); StatusChecked listing],
     Raise (RequestError 500 (JsonBody (JList (listing_of (remote w)))))).
Proof. repeat split; vm_compute; reflexivity. Qed.


(** C4: in a catalog where exactly one log is named [log], the lookup of
    [log] does not return its id: the name also matches [log2] and the lookup
    raises. *)
Theorem get_log_id_counts_containing_names :
  let w := world_of (mkService similar_names 200 []) ∅ in
  named "log" [(JStr "1", "log"); (JStr "2", "log2")] = [(JStr "1", "log")] /\
  catalog_of (listing_of (remote w))
  = Some [(JStr "1", "log"); (JStr "2", "log2")] /\
  (get_log_id (Some "log") ∅ w).2
  = Raise (Exception "Found 2 logs with the name log").
Proof. repeat split; vm_compute; reflexivity. Qed.



(** C6, as stated, fails: without a log id and without a name
    [get_event_log] ends in the [TypeError] of compiling [None] as a pattern,
    and with a name that matches no log it ends in the lookup error of
    [get_log_id]; neither is an error of the not-found kind. *)
Lemma get_event_log_without_arguments :
  let w := world_of (mkService three_logs 200 []) ∅ in
  (get_event_log event_csv None JNull ∅ w).2 = Raise TypeError /\
  ~ raises_kind KNotFoundError (get_event_log event_csv None JNull ∅ w).2 /\
  (get_event_log event_csv (Some "c") JNull ∅ w).2
  = Raise (Exception "Found 0 logs with the name c") /\
  ~ raises_kind KNotFoundError (get_event_log event_csv (Some "c") JNull ∅ w).2.
Proof.
  cbn zeta.
  assert ((get_event_log event_csv None JNull ∅
             (world_of (mkService three_logs 200 []) ∅)).2 = Raise TypeError)
    as E by (vm_compute; reflexivity).
  assert ((get_event_log event_csv (Some "c") JNull ∅
             (world_of (mkService three_logs 200 []) ∅)).2
          = Raise (Exception "Found 0 logs with the name c"))
    as E' by (vm_compute; reflexivity).
  rewrite E, E'. repeat split; try intros (e & [= <-] & Hk); discriminate.
Qed.

Lemma get_event_log_unresolved_name_witness :
  (get_event_log event_csv (Some "a") JNull ∅
     (world_of (mkService three_logs 200 []) ∅)).2
  = Raise (Exception "Found 2 logs with the name a").
Proof.
  refine (proj1 (get_event_log_unresolved_name (re := literal_re) event_csv
                   (world_of (mkService three_logs 200 []) ∅) ∅ JNull
                   (listing_of (mkService three_logs 200 []))
                   [(JStr "1", "a1"); (JStr "2", "a2"); (JStr "3", "b1")]
                   "a" "a" eq_refl _ eq_refl eq_refl _)).
  - exists (mkService three_logs 200 []), 200. reflexivity.
  - vm_compute. lia.
Defined.

(** C7: the options given to [delete_logs] reach the listing request and are
    missing from each deletion request. *)
Theorem delete_logs_drops_options :
  let w := world_of (mkService three_logs 200 []) ∅ in
  let kwargs : gmap string json := {[ "timeout" := JInt 5 ]} in
  sent_by (delete_logs (Some "a") kwargs) w
  = [listing_request kwargs; delete_request (JStr "1");
     delete_request (JStr "2")] /\
  map options (sent_by (delete_logs (Some "a") kwargs) w) = [kwargs; ∅; ∅] /\
  delete_log (JStr "1") kwargs w =
    (mkWorld ∅ (mkService [("2", "a2"); ("3", "b1")] 200 [])
       [Sent (mkRequest DELETE "/api/logs/1" ∅ ∅ kwargs);
        StatusChecked (mkResponse 200 (TextBody "deleted"))],
     Ok (mkResponse 200 (TextBody "deleted"))).
Proof. repeat split; vm_compute; reflexivity. Qed.

Lemma upload_event_log_stream_keeps_open_witness :
  let w := world_of (mkService [] 200 []) two_streams in
  let w' := (upload_event_log_stream 0 (JList []) 1 (JList []) "pylana-" ∅ w).1 in
  streams w' !! 0%nat = Some (mkStream "case,activity" 13 false 11) /\
  streams w' !! 1%nat = Some (mkStream "case,age" 8 false 12).
Proof.
  intros w w'.
  destruct (upload_event_log_stream_keeps_open w 0 (JList []) 1 (JList [])
              "pylana-" ∅ (mkStream "case,activity" 0 false 11)
              (mkStream "case,age" 0 false 12)
              eq_refl eq_refl eq_refl eq_refl) as (_ & H & _).
  fold w' in H. split.
  - destruct (H 0%nat _ (or_introl eq_refl) eq_refl)
      as ([c p cl h] & -> & Hc & Ht & Hh & Hp).
    cbn in Hc, Ht, Hh, Hp. by subst.
  - destruct (H 1%nat _ (or_intror eq_refl) eq_refl)
      as ([c p cl h] & -> & Hc & Ht & Hh & Hp).
    cbn in Hc, Ht, Hh, Hp. by subst.
Defined.

(** The deletion of the logs with an [a] in the name removes the first two
    logs and leaves the third. *)
Example delete_logs_by_pattern :
  let w := world_of (mkService three_logs 200 []) ∅ in
  (delete_logs (Some "a") ∅ w).2
  = Ok [mkResponse 200 (TextBody "deleted"); mkResponse 200 (TextBody "deleted")] /\
  logs (remote (delete_logs (Some "a") ∅ w).1) = [("3", "b1")].
Proof. split; vm_compute; reflexivity. Qed.

(** * Further properties of the client *)

(** ** The pattern lookup *)

Section PatternLookup.
Context {re : PyRe} {backend : Backend}.



(** X1: over a listing that denotes a catalog, and for a name that compiles
    as a pattern, [get_log_ids] returns the ids of the logs whose names the
    pattern finds a match in, in the order of the listing; when no name
    matches, the result is the empty list and no error. *)
Theorem get_log_ids_selects_matching (w : World) kwargs logs catalog name rc :
  lists w kwargs logs ->
  catalog_of logs = Some catalog ->
  re_compile name = Some rc ->
  (get_log_ids (Some name) kwargs w).2 = Ok (map fst (matching rc catalog)) /\
  (Forall (fun l => re_search rc l.2 = false) catalog ->
   (get_log_ids (Some name) kwargs w).2 = Ok []).
Proof.
  intros Hl Hc Hre.
  destruct (get_log_ids_run w kwargs logs catalog name rc Hl Hc Hre)
    as (rem & resp & _ & E).
  rewrite E. split; [done|]. intros Hnone. cbn. f_equal.
  unfold matching. clear -Hnone.
  induction Hnone as [|l catalog Hl _ IH]; [done|].
  rewrite filter_cons, decide_False by (rewrite Hl; done). exact IH.
Qed.

(** X3: the pattern is compiled after the listing request has been answered
    and before the body is decoded: a missing name raises [TypeError] and a
    name that is no pattern raises [re.error], each with the request sent
    and the body left undecoded. *)
Theorem get_log_ids_compiles_after_request (w : World) kwargs rem resp :
  transport (listing_request kwargs) (remote w) = (rem, Ok resp) ->
  get_log_ids None kwargs w =
    (mkWorld (streams w) rem (trace w ++ [Sent (listing_request kwargs)]),
     Raise TypeError) /\
  (forall name, re_compile name = None ->
     get_log_ids (Some name) kwargs w =
       (mkWorld (streams w) rem (trace w ++ [Sent (listing_request kwargs)]),
        Raise ReError)).
Proof.
  intros Ht. unfold listing_request in Ht.
  split; [|intros name Hre];
    unfold get_log_ids, api_get, send, py_re_compile; run;
    rewrite Ht, ?Hre; done.
Qed.

(** X4: an entry of the listing without an id is skipped when its name is
    not matched, and is a [KeyError] when its name is matched: the id is
    read only for the logs that are selected. *)
Theorem select_ids_reads_id_of_matches (rc : pattern) entry rest n :
  py_getitem entry "name" = Ok (JStr n) ->
  py_getitem entry "id" = Raise (KeyError "id") ->
  select_ids rc (entry :: rest) =
    if re_search rc n then Raise (KeyError "id") else select_ids rc rest.
Proof.
  intros Hn Hi. cbn [select_ids]. rewrite Hn, Hi. cbn.
  by destruct (re_search rc n).
Qed.

(** X5: an entry that cannot be asked for its name, or whose name is no
    string, ends the whole selection with its error, wherever it stands
    after well-formed entries: the ids selected before it are lost. *)
Theorem select_ids_fails_on_malformed_entry (rc : pattern) before catalog
    entry rest e :
  catalog_of before = Some catalog ->
  (name ← py_getitem entry "name"; py_search rc name) = Raise e ->
  select_ids rc (before ++ entry :: rest) = Raise e.
Proof.
  unfold catalog_of. rewrite mapM_Some. intros H He.
  induction H as [|x [i n] before catalog Href _ IH].
  - cbn [app select_ids]. unfold mbind, result_mbind in *.
    destruct (py_getitem entry "name") as [nm|e']; cbn [result_bind] in *.
    + rewrite He. reflexivity.
    + by injection He as ->.
  - unfold log_ref in Href.
    destruct (py_getitem x "id") as [i'|] eqn:Ei; [|discriminate].
    destruct (py_getitem x "name") as [[| | |n'| |]|] eqn:En; try discriminate.
    injection Href as -> ->.
    cbn [app select_ids]. rewrite En, Ei.
    cbn [mbind result_mbind result_bind py_search].
    destruct (re_search rc n); [|exact IH]. by rewrite IH.
Qed.

(** X6: a listing body that is no JSON array is iterated all the same: a
    non-empty object or string raises [TypeError], as do [null], a boolean
    and a number, while the empty object and the empty string give the empty
    list of ids. *)
Theorem get_log_ids_over_other_bodies (w : World) kwargs rem status j name rc :
  transport (listing_request kwargs) (remote w)
  = (rem, Ok (mkResponse status (JsonBody j))) ->
  re_compile name = Some rc ->
  (get_log_ids (Some name) kwargs w).2 =
    match j with
    | JList logs => select_ids rc logs
    | JDict [] | JStr EmptyString => Ok []
    | _ => Raise TypeError
    end.
Proof.
  intros Ht Hre. unfold listing_request in Ht.
  unfold get_log_ids, api_get, send, py_re_compile, resp_json. run.
  rewrite Ht, Hre. run. cbn [body].
  destruct j as [|b|z|s|l|kv]; cbn; try done.
  - by destruct s.
  - by destruct kv as [|[k v] kv].
Qed.

End PatternLookup.

(** ** Deleting by pattern, end to end *)

Section DeletingMatches.
Context {re : PyRe} {backend : Backend}.

(** X7: over a listing that denotes a catalog, [delete_logs] sends the
    listing request and then deletion requests for matched logs only, in the
    order of the listing and without repeating one; when it returns, every
    matched log has had its request, and when no log matches it returns the
    empty list after the listing alone. *)
Theorem delete_logs_only_matching (w : World) kwargs logs catalog name rc :
  lists w kwargs logs ->
  catalog_of logs = Some catalog ->
  re_compile name = Some rc ->
  let ids := map fst (matching rc catalog) in
  exists k,
    sent_by (delete_logs (Some name) kwargs) w
    = listing_request kwargs :: map delete_request (take k ids) /\
    (forall resps, (delete_logs (Some name) kwargs w).2 = Ok resps ->
                   k = length ids /\ length resps = length ids) /\
    (ids = [] -> (delete_logs (Some name) kwargs w).2 = Ok []).
Proof.
  intros Hl Hc Hre ids.
  destruct (get_log_ids_run w kwargs logs catalog name rc Hl Hc Hre)
    as (rem & resp & _ & E).
  fold ids in E.
  assert (delete_logs (Some name) kwargs w =
          for_each (fun log_id => delete_log log_id ∅) ids
            (mkWorld (streams w) rem
               (trace w ++ [Sent (listing_request kwargs); JsonDecoded resp])))
    as Ed by (unfold delete_logs; run; by rewrite E).
  destruct (for_each_delete_run ids
              (mkWorld (streams w) rem
                 (trace w ++ [Sent (listing_request kwargs); JsonDecoded resp])))
    as (k & l & Et & R & H).
  exists k. split; [|split].
  - unfold sent_by, new_events. rewrite Ed, Et. cbn [trace].
    rewrite <- app_assoc, drop_app_length, requests_app, R. reflexivity.
  - intros resps Hr. rewrite Ed in Hr. rewrite Hr in H. tauto.
  - intros Hnil. rewrite Ed, Hnil. reflexivity.
Qed.

End DeletingMatches.

(** ** Options reach the transport *)

Section Forwarding.
Context {re : PyRe} {backend : Backend} {tables : Tables}.

Lemma only_sends_resp_json P (resp : Response) : only_sends P (resp_json resp).
Proof.
  unfold resp_json. apply only_sends_bind; [by apply only_sends_emit|].
  intros _. destruct (body resp); [apply only_sends_ret|apply only_sends_raise].
Qed.

Lemma only_sends_expect_json P (m : M Response) :
  only_sends P m -> only_sends P (expect_json m).
Proof.
  intros Hm. unfold expect_json. apply only_sends_bind; [done|]. intros resp.
  intros w. destruct (only_sends_resp_json P resp w) as (l & E & HP).
  exists l. split; [|done]. unfold decode_or_protocol_error.
  by destruct (resp_json resp w) as [w' [j|[]]].
Qed.

Lemma only_sends_get_log_ids (P : Request -> Prop) contains kwargs :
  P (listing_request kwargs) -> only_sends P (get_log_ids contains kwargs).
Proof.
  intros HP. unfold get_log_ids.
  apply only_sends_bind; [by apply only_sends_send|]. intros resp.
  apply only_sends_bind; [apply only_sends_lift|]. intros rc.
  apply only_sends_bind; [apply only_sends_resp_json|]. intros listing.
  apply only_sends_bind; [apply only_sends_lift|]. intros logs.
  apply only_sends_lift.
Qed.

(** X8: every request a method sends carries the options the method was
    given, unchanged: this holds for the two listings, the two lookups, the
    three uploads, the append, the single deletion and the export request. *)
Theorem options_are_forwarded kwargs (w : World) :
  let forwarded {A} (m : M A) :=
    Forall (fun r => options r = kwargs) (sent_by m w) in
  (forall user_id, forwarded (list_logs kwargs) /\
                   forwarded (list_user_logs user_id kwargs)) /\
  (forall contains, forwarded (get_log_ids contains kwargs) /\
                    forwarded (get_log_id contains kwargs)) /\
  (forall name log ls ca cas,
     forwarded (upload_event_log name log ls ca cas kwargs)) /\
  (forall log ls case cs prefix,
     forwarded (upload_event_log_stream log ls case cs prefix kwargs)) /\
  (forall name df_log df_case time_format,
     forwarded (upload_event_log_df name df_log df_case time_format kwargs)) /\
  (forall log_id df_log time_format,
     forwarded (append_events_df log_id df_log time_format kwargs)) /\
  (forall log_id, forwarded (delete_log log_id kwargs) /\
                  forwarded (request_event_csv log_id kwargs)).
Proof.
  cbn zeta.
  assert (forall name log ls ca cas,
            only_sends (fun r => options r = kwargs)
              (upload_event_log name log ls ca cas kwargs)) as Hup.
  { intros. unfold upload_event_log. apply only_sends_handle_response.
    by apply only_sends_api_post. }
  repeat split; intros; apply only_sends_sent_by.
  - apply only_sends_expect_json, only_sends_handle_response.
    by apply only_sends_send.
  - apply only_sends_expect_json, only_sends_handle_response.
    by apply only_sends_send.
  - by apply only_sends_get_log_ids.
  - unfold get_log_id. apply only_sends_bind;
      [by apply only_sends_get_log_ids|].
    intros [|i [|i' l]]; first [apply only_sends_ret|apply only_sends_raise].
  - apply Hup.
  - unfold upload_event_log_stream. apply only_sends_handle_response.
    apply only_sends_bind; [apply only_sends_py_hash|]. intros h.
    apply only_sends_bind; [apply only_sends_stream_read|]. intros t1.
    apply only_sends_bind; [apply only_sends_stream_read|]. intros t2.
    apply only_sends_bind; [apply only_sends_bind_keywords|]. intros _.
    apply Hup.
  - unfold upload_event_log_df. apply only_sends_handle_response.
    apply only_sends_bind; [apply only_sends_lift|]. intros [dfe es].
    apply only_sends_bind; [apply only_sends_lift|]. intros [dfc cs].
    apply only_sends_bind; [apply only_sends_bind_keywords|]. intros _.
    apply Hup.
  - unfold append_events_df. apply only_sends_handle_response.
    apply only_sends_bind; [apply only_sends_lift|]. intros [dfe es].
    by apply only_sends_api_post.
  - unfold delete_log. apply only_sends_handle_response.
    by apply only_sends_send.
  - unfold request_event_csv. apply only_sends_handle_response.
    by apply only_sends_send.
Qed.

Lemma sent_by_ext {A B} (m : M A) (m' : M B) (w : World) :
  (m w).1 = (m' w).1 -> sent_by m w = sent_by m' w.
Proof. intros E. unfold sent_by, new_events. by rewrite E. Qed.

Lemma sent_by_unchanged {A} (m : M A) (w : World) :
  (m w).1 = w -> sent_by m w = [].
Proof. intros E. unfold sent_by, new_events. rewrite E. by rewrite drop_all. Qed.

(** The one request of a checked [post], or none when a keyword is given
    twice. *)
Lemma checked_post_sent rt fs dt kwargs (w : World) :
  sent_by (handle_response (api_post rt fs dt kwargs)) w =
  if distinct_keywords ["files"; "data"] kwargs
  then [mkRequest POST rt fs dt kwargs] else [].
Proof.
  unfold sent_by, new_events.
  rewrite handle_response_run, api_post_run.
  destruct (distinct_keywords _ kwargs); [|simpl; by rewrite drop_all].
  unfold send. destruct (transport _ (remote w)) as [rem [resp|e]]; simpl.
  - rewrite <- app_assoc, drop_app_length. reflexivity.
  - rewrite drop_app_length. reflexivity.
Qed.

(** X9: [append_events_df] sends at most one request, a [POST] to the
    [csv] route of the log, with the event file and the event semantics and
    nothing else: no case part, no log name and no time zone; when the
    inference of the semantics raises, nothing is sent, nothing changes and
    the error is handed on. *)
Theorem append_events_df_parts log_id df_log time_format kwargs (w : World) :
  let sent := sent_by (append_events_df log_id df_log time_format kwargs) w in
  (length sent <= 1)%nat /\
  Forall (fun r =>
            meth r = POST /\
            route r = "/api/logs/" +:+ log_id +:+ "/csv" /\
            (forall k, is_Some (files r !! k) <-> k = "eventCSVFile") /\
            (forall k, is_Some (data r !! k) <-> k = "eventSemantics")) sent /\
  (forall e, create_event_semantics_from_df df_log time_format = Raise e ->
             append_events_df log_id df_log time_format kwargs w = (w, Raise e)).
Proof.
  cbn zeta.
  assert (forall e, create_event_semantics_from_df df_log time_format = Raise e ->
            append_events_df log_id df_log time_format kwargs w = (w, Raise e))
    as Hfail.
  { intros e He. unfold append_events_df. rewrite handle_response_run. run.
    by rewrite He. }
  split; [|split; [|exact Hfail]].
  - destruct (create_event_semantics_from_df df_log time_format)
      as [[dfe es]|e] eqn:Einf.
    + erewrite sent_by_ext.
      2:{ unfold append_events_df. rewrite handle_response_run. run.
          rewrite Einf. cbn beta iota zeta.
          rewrite <- handle_response_run. reflexivity. }
      rewrite checked_post_sent. destruct (distinct_keywords _ kwargs); cbn; lia.
    + rewrite sent_by_unchanged; [cbn; lia|]. by rewrite (Hfail e).
  - apply only_sends_sent_by. unfold append_events_df.
    apply only_sends_handle_response.
    apply only_sends_bind; [apply only_sends_lift|]. intros [dfe es].
    apply only_sends_api_post. cbn [meth route files data].
    repeat split; try done.
    + intros [x Hx]. apply lookup_singleton_Some in Hx. by destruct Hx.
    + intros ->. rewrite lookup_singleton_eq. by eexists.
    + intros [x Hx]. apply lookup_singleton_Some in Hx. by destruct Hx.
    + intros ->. rewrite lookup_singleton_eq. by eexists.
Qed.

End Forwarding.

(** ** Uploads from tables and from streams *)

Section UploadVariants.
Context {backend : Backend} {tables : Tables}.

Lemma requests_drop_status (n : nat) (l : list Event) (r : Response) :
  requests (drop n (l ++ [StatusChecked r])) = requests (drop n l).
Proof.
  destruct (decide (n <= length l)%nat) as [Hle|Hgt].
  - rewrite drop_app_le by done. rewrite requests_app. apply app_nil_r.
  - rewrite drop_app_ge, (drop_ge l) by lia.
    by destruct (n - length l)%nat as [|[|k]].
Qed.

(** A checked call that is checked once more gives the same result. *)
Lemma handle_response_twice (m : M Response) (w : World) :
  (handle_response (handle_response m) w).2 = (handle_response m w).2 /\
  sent_by (handle_response (handle_response m)) w = sent_by (handle_response m) w.
Proof.
  unfold sent_by, new_events.
  rewrite (handle_response_run (handle_response m)).
  rewrite (handle_response_run m).
  destruct (m w) as [w' [resp|e]]; cbn; [|done].
  destruct (is_success (status_code resp)) eqn:Hs; cbn; rewrite ?Hs; [|done].
  split; [done|]. apply requests_drop_status.
Qed.

(** X10: when the inference of the event semantics, or after it the
    inference of the case semantics, raises, [upload_event_log_df] hands the
    error on and has done nothing: no request is sent and the world is as it
    was. *)
Theorem upload_event_log_df_inference_failure name df_log df_case time_format
    kwargs (w : World) :
  (forall e,
     create_event_semantics_from_df df_log time_format = Raise e ->
     upload_event_log_df name df_log df_case time_format kwargs w
     = (w, Raise e)) /\
  (forall events e,
     create_event_semantics_from_df df_log time_format = Ok events ->
     create_case_semantics_from_df df_case = Raise e ->
     upload_event_log_df name df_log df_case time_format kwargs w
     = (w, Raise e)).
Proof.
  split.
  - intros e He. unfold upload_event_log_df. rewrite handle_response_run. run.
    by rewrite He.
  - intros [dfe es] e He Hc. unfold upload_event_log_df.
    rewrite handle_response_run. run. rewrite He. cbn beta iota zeta.
    run. by rewrite Hc.
Qed.

(** X11: when both inferences succeed, [upload_event_log_df] is
    [upload_event_log] on the CSV texts of the two inferred tables and their
    descriptors: it sends the same request and ends in the same result,
    unless the options name a parameter of [upload_event_log], which is a
    [TypeError] with nothing sent. *)
Theorem upload_event_log_df_composes name df_log df_case time_format kwargs
    (w : World) df_events es df_cases cs :
  create_event_semantics_from_df df_log time_format = Ok (df_events, es) ->
  create_case_semantics_from_df df_case = Ok (df_cases, cs) ->
  let upload :=
    upload_event_log name (to_csv df_events) es (JStr (to_csv df_cases)) cs
      kwargs in
  if distinct_keywords upload_event_log_params kwargs then
    sent_by (upload_event_log_df name df_log df_case time_format kwargs) w
    = sent_by upload w /\
    (upload_event_log_df name df_log df_case time_format kwargs w).2
    = (upload w).2
  else
    upload_event_log_df name df_log df_case time_format kwargs w
    = (w, Raise TypeError).
Proof.
  intros He Hc upload.
  destruct (distinct_keywords upload_event_log_params kwargs) eqn:Hk.
  - assert (upload_event_log_df name df_log df_case time_format kwargs w
            = handle_response upload w) as E.
    { unfold upload_event_log_df. rewrite !handle_response_run. run.
      rewrite He. cbn beta iota zeta. run. rewrite Hc. cbn beta iota zeta.
      unfold bind_keywords. rewrite Hk. run. reflexivity. }
    split.
    + rewrite (sent_by_ext _ (handle_response upload)) by (by rewrite E).
      apply handle_response_twice.
    + rewrite E. apply handle_response_twice.
  - unfold upload_event_log_df. rewrite handle_response_run. run.
    rewrite He. cbn beta iota zeta. run. rewrite Hc. cbn beta iota zeta.
    unfold bind_keywords. rewrite Hk. reflexivity.
Qed.

End UploadVariants.

Section StreamUploads.
Context {backend : Backend}.

Lemma substring_nothing (n : nat) (s : string) : substring n 0 s = "".
Proof.
  revert n. induction s as [|c s IH]; intros [|n]; cbn; done.
Qed.

Lemma unread_at_end (st : Stream) : unread (at_end st) = "".
Proof.
  unfold unread, at_end. cbn [position content].
  replace (_ - _)%nat with 0%nat by lia. apply substring_nothing.
Qed.

(** The stream upload after its two reads. *)
Lemma upload_event_log_stream_run (w : World) log ls case cs prefix kwargs
    (sl sc : Stream) :
  streams w !! log = Some sl -> closed sl = false ->
  streams w !! case = Some sc -> closed sc = false ->
  let sc' := if decide (case = log) then at_end sl else sc in
  let w2 := mkWorld (<[case := at_end sc']> (<[log := at_end sl]> (streams w)))
              (remote w) (trace w ++ [StreamRead log; StreamRead case]) in
  upload_event_log_stream log ls case cs prefix kwargs w =
  if distinct_keywords upload_event_log_params kwargs
  then handle_response
         (upload_event_log (prefix +:+ pretty (obj_hash sl)) (unread sl) ls
            (JStr (unread sc')) cs kwargs) w2
  else (w2, Raise TypeError).
Proof.
  intros Hl Hlo Hc Hco sc' w2.
  assert ((<[log := at_end sl]> (streams w)) !! case = Some sc' /\
          closed sc' = false) as (Hc' & Hco').
  { subst sc'. destruct (decide (case = log)) as [-> | Hne].
    - by rewrite lookup_insert_eq.
    - by rewrite lookup_insert_ne. }
  unfold upload_event_log_stream.
  rewrite handle_response_run. unfold py_hash. run. rewrite Hl. run.
  rewrite (stream_read_run log sl w Hl Hlo). run.
  erewrite stream_read_run by (cbn [streams]; eauto). run.
  cbn [streams remote trace]. rewrite <- app_assoc. cbn [app].
  fold w2. unfold bind_keywords.
  destruct (distinct_keywords upload_event_log_params kwargs); run;
    [|reflexivity].
  by rewrite handle_response_run.
Qed.

Lemma upload_event_log_stream_sent (w : World) log ls case cs prefix kwargs
    (sl sc : Stream) :
  streams w !! log = Some sl -> closed sl = false ->
  streams w !! case = Some sc -> closed sc = false ->
  let sc' := if decide (case = log) then at_end sl else sc in
  let name := prefix +:+ pretty (obj_hash sl) in
  sent_by (upload_event_log_stream log ls case cs prefix kwargs) w =
  if distinct_keywords upload_event_log_params kwargs
     && distinct_keywords ["files"; "data"] kwargs
  then [mkRequest POST upload_route
          (upload_files name (unread sl) (JStr (unread sc')))
          (upload_semantics name ls cs) kwargs]
  else [].
Proof.
  intros Hl Hlo Hc Hco sc' name.
  pose proof (upload_event_log_stream_run w log ls case cs prefix kwargs sl sc
                Hl Hlo Hc Hco) as E.
  cbn zeta in E. fold sc' name in E.
  set (w2 := mkWorld _ _ _) in E.
  unfold sent_by, new_events. rewrite E.
  destruct (distinct_keywords upload_event_log_params kwargs); cbn [andb].
  - set (up := upload_event_log _ _ _ _ _ _).
    assert (sent_by (handle_response up) w2 = sent_by up w2) as Hs
      by exact (proj2 (handle_response_twice
                         (api_post upload_route
                            (upload_files name (unread sl) (JStr (unread sc')))
                            (upload_semantics name ls cs) kwargs) w2)).
    unfold up in Hs at 2. rewrite (upload_event_log_sent _ _ _ _ _ _ w2) in Hs.
    destruct (only_sends_trace (fun _ => True) (handle_response up) w2)
      as (l & El).
    { apply only_sends_handle_response. unfold up, upload_event_log.
      apply only_sends_handle_response. by apply only_sends_api_post. }
    unfold sent_by in Hs. rewrite (new_events_app _ _ _ El) in Hs.
    rewrite El. subst w2. cbn [trace].
    rewrite <- app_assoc, drop_app_length, requests_app. exact Hs.
  - subst w2. cbn [fst trace]. by rewrite drop_app_length.
Qed.

(** X12: with two different open streams, [upload_event_log_stream] sends
    one upload request whose log name and event file name are the prefix
    followed by the hash of the log stream, whose event file holds what was
    still unread of the log stream and whose case file holds what was still
    unread of the case stream. *)
Theorem upload_event_log_stream_request (w : World) log ls case cs prefix
    kwargs (sl sc : Stream) :
  streams w !! log = Some sl -> closed sl = false ->
  streams w !! case = Some sc -> closed sc = false ->
  log ≠ case ->
  let name := prefix +:+ pretty (obj_hash sl) in
  sent_by (upload_event_log_stream log ls case cs prefix kwargs) w =
  if distinct_keywords upload_event_log_params kwargs
     && distinct_keywords ["files"; "data"] kwargs
  then [mkRequest POST upload_route
          (upload_files name (unread sl) (JStr (unread sc)))
          (upload_semantics name ls cs) kwargs]
  else [].
Proof.
  intros Hl Hlo Hc Hco Hne.
  pose proof (upload_event_log_stream_sent w log ls case cs prefix kwargs sl sc
                Hl Hlo Hc Hco) as E.
  cbn zeta in E. by rewrite decide_False in E by done.
Qed.

(** X13: when one open stream is given both as the log and as the case
    stream, the second read finds nothing left, so the request carries the
    event file and no case-attribute file. *)
Theorem upload_event_log_stream_same_stream (w : World) h ls cs prefix kwargs
    (st : Stream) :
  streams w !! h = Some st -> closed st = false ->
  Forall (fun r =>
            ~ has_case_file r /\
            files r !! "eventCSVFile"
            = Some (prefix +:+ pretty (obj_hash st), JStr (unread st), "text/csv"))
    (sent_by (upload_event_log_stream h ls h cs prefix kwargs) w).
Proof.
  intros Hh Ho.
  pose proof (upload_event_log_stream_sent w h ls h cs prefix kwargs st st
                Hh Ho Hh Ho) as E.
  cbn zeta in E. rewrite decide_True in E by done. rewrite E.
  destruct (_ && _); constructor; [|constructor].
  unfold has_case_file; cbn [files].
  rewrite upload_files_case, upload_files_event, unread_at_end. cbn.
  split; [by intros [? ?]|done].
Qed.

(** X14: a closed stream is a [ValueError] and no request.  When the log
    stream is the closed one, nothing has changed; when the log stream is
    open and the case stream is closed, the log stream has been read to its
    end all the same. *)
Theorem upload_event_log_stream_closed (w : World) log ls case cs prefix
    kwargs (sl sc : Stream) :
  streams w !! log = Some sl ->
  streams w !! case = Some sc ->
  (closed sl = true ->
   upload_event_log_stream log ls case cs prefix kwargs w
   = (w, Raise ValueError)) /\
  (closed sl = false -> closed sc = true ->
   upload_event_log_stream log ls case cs prefix kwargs w
   = (mkWorld (<[log := at_end sl]> (streams w)) (remote w)
        (trace w ++ [StreamRead log]),
      Raise ValueError)).
Proof.
  intros Hl Hc. split.
  - intros Hlo. unfold upload_event_log_stream.
    rewrite handle_response_run. unfold py_hash, stream_read. run.
    rewrite Hl. run. by rewrite Hl, Hlo.
  - intros Hlo Hco.
    assert (case ≠ log) as Hne by (intros ->; congruence).
    unfold upload_event_log_stream.
    rewrite handle_response_run. unfold py_hash. run. rewrite Hl. run.
    rewrite (stream_read_run log sl w Hl Hlo). run.
    unfold stream_read. cbn [streams].
    rewrite lookup_insert_ne, Hc, Hco by done. reflexivity.
Qed.

End StreamUploads.

(** ** The enriched event log *)

Section EventLog.
Context {re : PyRe} {backend : Backend} {tables : Tables}.
Variable get_event_csv : json -> M Response.

(** X15: a true [log_id] is used as it is, whatever the name; without one,
    the name is resolved by one listing request, which carries none of the
    options, and the export is fetched for the id of the one log the name
    matches. *)
Theorem get_event_log_resolves (w : World) kwargs log_id logs catalog name rc l :
  lists w ∅ logs ->
  catalog_of logs = Some catalog ->
  re_compile name = Some rc ->
  matching rc catalog = [l] ->
  (truthy log_id = true ->
   forall any_name,
     get_event_log get_event_csv any_name log_id kwargs w
     = read_event_log get_event_csv log_id kwargs w) /\
  (truthy log_id = false ->
   exists rem resp,
     get_event_log get_event_csv (Some name) log_id kwargs w
     = read_event_log get_event_csv l.1 kwargs
         (mkWorld (streams w) rem
            (trace w ++ [Sent (listing_request ∅); JsonDecoded resp]))).
Proof.
  intros Hl Hc Hre Hm. split.
  - intros Ht any_name. unfold get_event_log, read_event_log. by rewrite Ht.
  - intros Ht.
    destruct (get_log_ids_run w ∅ logs catalog name rc Hl Hc Hre)
      as (rem & resp & _ & E).
    exists rem, resp. unfold get_event_log, read_event_log, get_log_id.
    rewrite Ht. run. rewrite E, Hm. reflexivity.
Qed.

(** X16: a [dtype] among the options is a [TypeError], raised only after
    the export has been fetched: the world is the one the fetch left. *)
Theorem get_event_log_dtype_clash (w w' : World) kwargs log_id name resp v :
  truthy log_id = true ->
  kwargs !! "dtype" = Some v ->
  get_event_csv log_id w = (w', Ok resp) ->
  get_event_log get_event_csv name log_id kwargs w = (w', Raise TypeError).
Proof.
  intros Ht Hk Hg. unfold get_event_log, bind_keywords, distinct_keywords.
  rewrite Ht. run. rewrite Hg. cbn [forallb].
  rewrite bool_decide_eq_false_2 by (rewrite Hk; done). reflexivity.
Qed.

End EventLog.

(** ** The legacy lookup by name *)

Section ChooseLog.
Context {backend : Backend}.

Lemma py_eq_name (n name : string) :
  py_eq (JStr n) (JStr name) = bool_decide (n = name).
Proof.
  cbn. destruct (String.eqb_spec n name).
  - by rewrite bool_decide_eq_true_2.
  - by rewrite bool_decide_eq_false_2.
Qed.

Lemma select_named_catalog (name : string) (logs : list json)
    (catalog : list (json * string)) :
  catalog_of logs = Some catalog ->
  select_named name logs = Ok (map fst (named name catalog)).
Proof.
  unfold catalog_of. rewrite mapM_Some. intros H.
  induction H as [|entry [i n] logs catalog Href _ IH]; [reflexivity|].
  unfold log_ref in Href.
  destruct (py_getitem entry "id") as [i'|] eqn:Ei; [|discriminate].
  destruct (py_getitem entry "name") as [[| | |n'| |]|] eqn:En; try discriminate.
  injection Href as -> ->.
  unfold named in *. rewrite filter_cons. cbn [snd].
  cbn [select_named]. rewrite En, Ei.
  cbn [mbind result_mbind result_bind]. rewrite py_eq_name.
  destruct (decide (n = name)) as [Heq|Hne].
  - rewrite bool_decide_eq_true_2 by done. by rewrite IH.
  - rewrite bool_decide_eq_false_2 by done. exact IH.
Qed.

(** X17: over a listing of the user's logs that is answered with success
    and denotes a catalog, [chooseLog] selects by equality of the name, not
    by a pattern: it returns the greatest id among the logs with exactly
    that name, the id of the log when there is one, and raises [ValueError]
    when there is none. *)
Theorem chooseLog_selects_by_equality (w : World) user_id logs catalog name
    rem status :
  transport (user_listing_request user_id ∅) (remote w)
  = (rem, Ok (mkResponse status (JsonBody (JList logs)))) ->
  is_success status = true ->
  catalog_of logs = Some catalog ->
  (chooseLog user_id name w).2 = py_max (map fst (named name catalog)) /\
  (named name catalog = [] ->
   (chooseLog user_id name w).2 = Raise ValueError) /\
  (forall l, named name catalog = [l] ->
             (chooseLog user_id name w).2 = Ok l.1).
Proof.
  intros Ht Hs Hc. unfold user_listing_request in Ht.
  assert ((chooseLog user_id name w).2 = py_max (map fst (named name catalog)))
    as E.
  { unfold chooseLog, getUserLogs, list_user_logs, expect_json,
      decode_or_protocol_error, resp_json.
    run. rewrite handle_response_run. unfold api_get, send. rewrite Ht.
    cbn [status_code body]. rewrite Hs. run. cbn [body py_iter].
    rewrite (select_named_catalog name logs catalog Hc). reflexivity. }
  split; [exact E|]. split.
  - intros Hn. by rewrite E, Hn.
  - intros l Hn. by rewrite E, Hn.
Qed.

End ChooseLog.

(** ** Building a client *)

(** X18: in compatibility mode [create_api] builds the first kind of client
    and never looks at [verify]; a true [url] is taken as it is, whatever
    the scheme, the host and the port are, and without one the base url is
    put together from them, a missing port showing as [None]; outside
    compatibility mode the [url] and the [api_key] are never looked at. *)
Theorem create_api_ignores (scheme host token port verify compatibility url
    api_key : json) :
  (truthy compatibility = true ->
   (truthy url = true ->
    forall scheme' host' port' verify',
      create_api scheme host token port verify compatibility url api_key
      = LanaAPI url token api_key /\
      create_api scheme' host' token port' verify' compatibility url api_key
      = LanaAPI url token api_key) /\
   (truthy url = false ->
    forall verify' s h,
      scheme = JStr s -> host = JStr h -> port = JNull ->
      create_api scheme host token port verify' compatibility url api_key
      = LanaAPI (JStr (s +:+ "://" +:+ h +:+ ":None/")) token api_key)) /\
  (truthy compatibility = false ->
   forall url' api_key',
     create_api scheme host token port verify compatibility url' api_key'
     = LanaAPI2 scheme host token port verify).
Proof.
  unfold create_api. split.
  - intros ->. split.
    + intros ->. done.
    + intros -> verify' s h -> -> ->. reflexivity.
  - intros ->. done.
Qed.

(** * The further properties on the fixtures *)

Lemma three_logs_listed :
  lists (world_of (mkService three_logs 200 []) ∅) ∅
    (listing_of (mkService three_logs 200 [])).
Proof. exists (mkService three_logs 200 []), 200. reflexivity. Qed.

Lemma get_log_ids_selects_matching_witness :
  (get_log_ids (Some "a") ∅ (world_of (mkService three_logs 200 []) ∅)).2
  = Ok [JStr "1"; JStr "2"] /\
  (get_log_ids (Some "z") ∅ (world_of (mkService three_logs 200 []) ∅)).2
  = Ok [].
Proof.
  split.
  - exact (proj1 (get_log_ids_selects_matching (re := literal_re)
                    (world_of (mkService three_logs 200 []) ∅) ∅
                    (listing_of (mkService three_logs 200 []))
                    [(JStr "1", "a1"); (JStr "2", "a2"); (JStr "3", "b1")]
                    "a" "a" three_logs_listed eq_refl eq_refl)).
  - apply (proj2 (get_log_ids_selects_matching (re := literal_re)
                    (world_of (mkService three_logs 200 []) ∅) ∅
                    (listing_of (mkService three_logs 200 []))
                    [(JStr "1", "a1"); (JStr "2", "a2"); (JStr "3", "b1")]
                    "z" "z" three_logs_listed eq_refl eq_refl)).
    repeat constructor.
Defined.

Lemma get_log_ids_compiles_after_request_witness :
  get_log_ids (Some "(") ∅ (world_of (mkService three_logs 200 []) ∅)
  = (mkWorld ∅ (mkService three_logs 200 []) [Sent (listing_request ∅)],
     Raise ReError).
Proof.
  exact (proj2 (get_log_ids_compiles_after_request (re := literal_re)
                  (world_of (mkService three_logs 200 []) ∅) ∅
                  (mkService three_logs 200 [])
                  (mkResponse 200
                     (JsonBody (JList (listing_of (mkService three_logs 200 [])))))
                  eq_refl) "(" eq_refl).
Defined.

Lemma select_ids_reads_id_of_matches_witness :
  select_ids (re := literal_re) "a" [JDict [("name", JStr "b1")]] = Ok [] /\
  select_ids (re := literal_re) "b" [JDict [("name", JStr "b1")]]
  = Raise (KeyError "id").
Proof.
  split.
  - exact (select_ids_reads_id_of_matches (re := literal_re) "a"
             (JDict [("name", JStr "b1")]) [] "b1" eq_refl eq_refl).
  - exact (select_ids_reads_id_of_matches (re := literal_re) "b"
             (JDict [("name", JStr "b1")]) [] "b1" eq_refl eq_refl).
Defined.

Lemma select_ids_fails_on_malformed_entry_witness :
  select_ids (re := literal_re) "a"
    [JDict [("id", JStr "1"); ("name", JStr "a1")]; JDict [("id", JStr "2")]]
  = Raise (KeyError "name").
Proof.
  exact (select_ids_fails_on_malformed_entry (re := literal_re) "a"
           [JDict [("id", JStr "1"); ("name", JStr "a1")]]
           [(JStr "1", "a1")] (JDict [("id", JStr "2")]) []
           (KeyError "name") eq_refl eq_refl).
Defined.

Lemma get_log_ids_over_other_bodies_witness :
  (get_log_ids (re := literal_re) (backend := canned) (Some "a") ∅
     (canned_world
        (mkResponse 401 (JsonBody (JDict [("error", JStr "no token")]))))).2
  = Raise TypeError.
Proof.
  exact (get_log_ids_over_other_bodies (re := literal_re) (backend := canned)
           (canned_world
              (mkResponse 401 (JsonBody (JDict [("error", JStr "no token")]))))
           ∅ (mkResponse 401 (JsonBody (JDict [("error", JStr "no token")])))
           401 (JDict [("error", JStr "no token")]) "a" "a" eq_refl eq_refl).
Defined.

Lemma delete_logs_only_matching_witness :
  exists k,
    sent_by (delete_logs (Some "a") ∅) (world_of (mkService three_logs 200 []) ∅)
    = listing_request ∅
      :: map delete_request (take k [JStr "1"; JStr "2"]) /\
    (forall resps,
       (delete_logs (Some "a") ∅
          (world_of (mkService three_logs 200 []) ∅)).2 = Ok resps ->
       k = 2%nat /\ length resps = 2%nat) /\
    ([JStr "1"; JStr "2"] = [] ->
     (delete_logs (Some "a") ∅
        (world_of (mkService three_logs 200 []) ∅)).2 = Ok []).
Proof.
  exact (delete_logs_only_matching (re := literal_re)
           (world_of (mkService three_logs 200 []) ∅) ∅
           (listing_of (mkService three_logs 200 []))
           [(JStr "1", "a1"); (JStr "2", "a2"); (JStr "3", "b1")]
           "a" "a" three_logs_listed eq_refl eq_refl).
Defined.

Lemma append_events_df_parts_witness :
  append_events_df (tables := strict_tables) "7" "" "%Y" ∅
    (world_of (mkService three_logs 200 []) ∅)
  = (world_of (mkService three_logs 200 []) ∅, Raise ValueError).
Proof.
  exact (proj2 (proj2 (append_events_df_parts (tables := strict_tables)
                         "7" "" "%Y" ∅
                         (world_of (mkService three_logs 200 []) ∅)))
           ValueError eq_refl).
Defined.

Lemma upload_event_log_df_inference_failure_witness :
  upload_event_log_df (tables := strict_tables) "log" "" "case,age" "%Y" ∅
    (world_of (mkService three_logs 200 []) ∅)
  = (world_of (mkService three_logs 200 []) ∅, Raise ValueError) /\
  upload_event_log_df (tables := strict_tables) "log" "case,activity" "" "%Y" ∅
    (world_of (mkService three_logs 200 []) ∅)
  = (world_of (mkService three_logs 200 []) ∅, Raise ValueError).
Proof.
  split.
  - exact (proj1 (upload_event_log_df_inference_failure
                    (tables := strict_tables) "log" "" "case,age" "%Y" ∅
                    (world_of (mkService three_logs 200 []) ∅))
             ValueError eq_refl).
  - exact (proj2 (upload_event_log_df_inference_failure
                    (tables := strict_tables) "log" "case,activity" "" "%Y" ∅
                    (world_of (mkService three_logs 200 []) ∅))
             ("case,activity", JList []) ValueError eq_refl eq_refl).
Defined.

Lemma upload_event_log_df_composes_witness :
  sent_by (upload_event_log_df "log" "case,activity" "case,age" "%Y" ∅)
    (world_of (mkService three_logs 200 []) ∅)
  = sent_by (upload_event_log "log" "case,activity" (JList [])
               (JStr "case,age") (JList []) ∅)
      (world_of (mkService three_logs 200 []) ∅).
Proof.
  exact (proj1 (upload_event_log_df_composes (tables := csv_tables)
                  "log" "case,activity" "case,age" "%Y" ∅
                  (world_of (mkService three_logs 200 []) ∅)
                  "case,activity" (JList []) "case,age" (JList [])
                  eq_refl eq_refl)).
Defined.

Lemma upload_event_log_stream_request_witness :
  sent_by (upload_event_log_stream 0 (JList []) 1 (JList []) "pylana-" ∅)
    (world_of (mkService [] 200 []) two_streams)
  = [mkRequest POST upload_route
       (upload_files "pylana-11" "case,activity" (JStr "case,age"))
       (upload_semantics "pylana-11" (JList []) (JList [])) ∅].
Proof.
  exact (upload_event_log_stream_request
           (world_of (mkService [] 200 []) two_streams) 0 (JList []) 1
           (JList []) "pylana-" ∅
           (mkStream "case,activity" 0 false 11)
           (mkStream "case,age" 0 false 12)
           eq_refl eq_refl eq_refl eq_refl ltac:(discriminate)).
Defined.

Lemma upload_event_log_stream_same_stream_witness :
  Forall (fun r =>
            ~ has_case_file r /\
            files r !! "eventCSVFile"
            = Some ("pylana-11", JStr "case,activity", "text/csv"))
    (sent_by (upload_event_log_stream 0 (JList []) 0 (JList []) "pylana-" ∅)
       (world_of (mkService [] 200 []) two_streams)).
Proof.
  exact (upload_event_log_stream_same_stream
           (world_of (mkService [] 200 []) two_streams) 0 (JList [])
           (JList []) "pylana-" ∅ (mkStream "case,activity" 0 false 11)
           eq_refl eq_refl).
Defined.

Lemma upload_event_log_stream_closed_witness :
  let ss : gmap nat Stream :=
    {[ 0%nat := mkStream "case,activity" 3 false 11;
       1%nat := mkStream "case,age" 0 true 12 ]} in
  let w := world_of (mkService [] 200 []) ss in
  upload_event_log_stream 1 (JList []) 0 (JList []) "pylana-" ∅ w
  = (w, Raise ValueError) /\
  upload_event_log_stream 0 (JList []) 1 (JList []) "pylana-" ∅ w
  = (mkWorld (<[0%nat := mkStream "case,activity" 13 false 11]> ss)
       (mkService [] 200 []) [StreamRead 0],
     Raise ValueError).
Proof.
  intros ss w. split.
  - exact (proj1 (upload_event_log_stream_closed w 1 (JList []) 0 (JList [])
                    "pylana-" ∅ (mkStream "case,age" 0 true 12)
                    (mkStream "case,activity" 3 false 11) eq_refl eq_refl)
             eq_refl).
  - exact (proj2 (upload_event_log_stream_closed w 0 (JList []) 1 (JList [])
                    "pylana-" ∅ (mkStream "case,activity" 3 false 11)
                    (mkStream "case,age" 0 true 12) eq_refl eq_refl)
             eq_refl eq_refl).
Defined.

Lemma get_event_log_resolves_witness :
  let w := world_of (mkService three_logs 200 []) ∅ in
  get_event_log event_csv (Some "a") (JStr "3") ∅ w
  = read_event_log event_csv (JStr "3") ∅ w /\
  exists rem resp,
    get_event_log event_csv (Some "b") JNull ∅ w
    = read_event_log event_csv (JStr "3") ∅
        (mkWorld ∅ rem [Sent (listing_request ∅); JsonDecoded resp]).
Proof.
  intros w.
  destruct (get_event_log_resolves (re := literal_re) event_csv w ∅ (JStr "3")
              (listing_of (mkService three_logs 200 []))
              [(JStr "1", "a1"); (JStr "2", "a2"); (JStr "3", "b1")]
              "b" "b" (JStr "3", "b1") three_logs_listed eq_refl eq_refl
              eq_refl) as [Hid _].
  destruct (get_event_log_resolves (re := literal_re) event_csv w ∅ JNull
              (listing_of (mkService three_logs 200 []))
              [(JStr "1", "a1"); (JStr "2", "a2"); (JStr "3", "b1")]
              "b" "b" (JStr "3", "b1") three_logs_listed eq_refl eq_refl
              eq_refl) as [_ Hname].
  split; [exact (Hid eq_refl (Some "a"))|exact (Hname eq_refl)].
Defined.

Lemma get_event_log_dtype_clash_witness :
  let resp := mkResponse 200 (TextBody "case,activity") in
  let kwargs : gmap string json := {[ "dtype" := JStr "str" ]} in
  get_event_log (backend := canned) (tables := csv_tables)
    (fun log_id => request_event_csv (backend := canned) log_id ∅)
    None (JStr "3") kwargs (canned_world resp)
  = ((request_event_csv (backend := canned) (JStr "3") ∅ (canned_world resp)).1,
     Raise TypeError).
Proof.
  intros resp kwargs.
  exact (get_event_log_dtype_clash (backend := canned) (tables := csv_tables)
           (fun log_id => request_event_csv (backend := canned) log_id ∅)
           (canned_world resp)
           (request_event_csv (backend := canned) (JStr "3") ∅
              (canned_world resp)).1
           kwargs (JStr "3") None resp (JStr "str")
           eq_refl eq_refl eq_refl).
Defined.

Lemma chooseLog_selects_by_equality_witness :
  let listing :=
    [JDict [("id", JStr "1"); ("name", JStr "log")];
     JDict [("id", JStr "2"); ("name", JStr "log2")]] in
  let w := canned_world (mkResponse 200 (JsonBody (JList listing))) in
  (chooseLog (backend := canned) "u" "log" w).2 = Ok (JStr "1") /\
  (chooseLog (backend := canned) "u" "lo" w).2 = Raise ValueError.
Proof.
  intros listing w.
  destruct (chooseLog_selects_by_equality (backend := canned) w "u" listing
              [(JStr "1", "log"); (JStr "2", "log2")] "log"
              (mkResponse 200 (JsonBody (JList listing))) 200
              eq_refl eq_refl eq_refl) as (_ & _ & Hone).
  destruct (chooseLog_selects_by_equality (backend := canned) w "u" listing
              [(JStr "1", "log"); (JStr "2", "log2")] "lo"
              (mkResponse 200 (JsonBody (JList listing))) 200
              eq_refl eq_refl eq_refl) as (_ & Hnone & _).
  split; [exact (Hone (JStr "1", "log") eq_refl)|exact (Hnone eq_refl)].
Defined.

Lemma create_api_ignores_witness :
  create_api (JStr "https") (JStr "cloud") (JStr "token") JNull (JBool false)
    (JBool true) JNull JNull
  = LanaAPI (JStr "https://cloud:None/") (JStr "token") JNull /\
  create_api (JStr "https") (JStr "cloud") (JStr "token") (JInt 443)
    (JBool true) (JBool false) (JStr "http://other/") (JStr "key")
  = LanaAPI2 (JStr "https") (JStr "cloud") (JStr "token") (JInt 443)
      (JBool true).
Proof.
  split.
  - exact (proj2 (proj1 (create_api_ignores (JStr "https") (JStr "cloud")
                           (JStr "token") JNull (JBool false) (JBool true)
                           JNull JNull) eq_refl)
             eq_refl (JBool false) "https" "cloud" eq_refl eq_refl eq_refl).
  - exact (proj2 (create_api_ignores (JStr "https") (JStr "cloud")
                    (JStr "token") (JInt 443) (JBool true) (JBool false)
                    JNull JNull) eq_refl (JStr "http://other/") (JStr "key")).
Defined.

(** [max] on the values of a listing, as Python orders them. *)
Example py_max_orders :
  py_max [JStr "10"; JStr "9"] = Ok (JStr "9") /\
  py_max [JInt 3; JBool true; JInt 2] = Ok (JInt 3) /\
  py_max [JList [JInt 1; JInt 2]; JList [JInt 1; JInt 3]; JList [JInt 1]]
  = Ok (JList [JInt 1; JInt 3]) /\
  py_max [JStr "a"; JStr "B"; JStr "ab"] = Ok (JStr "ab") /\
  py_max [JBool true; JInt 1] = Ok (JBool true) /\
  py_max [JList [JInt 1; JInt 2]; JList [JBool true; JInt 2]]
  = Ok (JList [JInt 1; JInt 2]) /\
  py_max [JInt 1; JStr "a"] = Raise TypeError /\
  py_max [JNull; JNull] = Raise TypeError /\
  py_max [JNull] = Ok JNull /\
  py_max [JList [JInt 1; JNull]; JList [JInt 1; JNull]]
  = Ok (JList [JInt 1; JNull]) /\
  py_max [] = Raise ValueError.
Proof. repeat split; reflexivity. Qed.
